(** * demo.ts: the [eth_createAccessList] reproduction script

    A shallow embedding of [src/demo.ts].  The script resolves its
    configuration at module level (chain, RPC URL, account), then runs one
    asynchronous flow: balance reads, a dry run of an ERC-20 self-transfer,
    an [eth_createAccessList] request and, when a mnemonic is configured,
    the submission of the transfer and the wait for its receipt.

    The script is written against the viem client library.  Every call it
    makes to a client action is recorded as an [Event]; what the remote
    endpoint answers is a parameter of the run (the [Node] record).  The
    flow itself is an error-and-trace monad: an awaited promise that rejects
    ends the run with the rejection value, as an uncaught exception of the
    [async] function does. *)

From Stdlib Require Import ZArith List String Ascii Bool Lia Permutation.
Import ListNotations.
Local Open Scope string_scope.
Local Open Scope list_scope.
Local Open Scope Z_scope.

(** ** Values of the script *)

(** An address is the integer value of its 20-byte hexadecimal string. *)
Definition Address := Z.
Definition Hash := Z.
Definition Calldata := list Z.

(** [--chain] is restricted by yargs' [choices] to the keys of
    [CHAINS_BY_NAME]. *)
Inductive ChainName := chain_base | chain_celo.

(** The part of viem's [Chain] objects the script and the transport read. *)
Record Chain := {
  chain_id : Z;
  nativeCurrency_symbol : string;
  nativeCurrency_decimals : nat;
  rpcUrls_default_http : list string
}.

(** [base] and [celo] of [viem/chains]. *)
Definition base : Chain :=
  {| chain_id := 8453; nativeCurrency_symbol := "ETH";
     nativeCurrency_decimals := 18;
     rpcUrls_default_http := ["https://mainnet.base.org"] |}.

Definition celo : Chain :=
  {| chain_id := 42220; nativeCurrency_symbol := "CELO";
     nativeCurrency_decimals := 18;
     rpcUrls_default_http := ["https://forno.celo.org"] |}.

(** [TOKEN_SEND_AMOUNT.toString()]: the script only uses the number 0.01
    through its decimal rendering. *)
Definition TOKEN_SEND_AMOUNT : string := "0.01".

Definition TOKEN_ADDRESS_BY_CHAIN (id : Z) : option Address :=
  if id =? chain_id celo then Some 0xceba9300f2b948710d2653dd7b07f33a8b32118c
  else if id =? chain_id base then Some 0x833589fcd6edb6e08f4c7c32d4f71b54bda02913
  else None.

Definition CHAINS_BY_NAME (c : ChainName) : Chain :=
  match c with chain_base => base | chain_celo => celo end.

Definition RPC_ENV_VAR_BY_CHAIN (c : ChainName) : string :=
  match c with chain_base => "BASE_RPC_URL" | chain_celo => "CELO_RPC_URL" end.

Definition FALLBACK_ADDRESS : Address := 0xe30E59040385cfa09e5C61241C20f0673F314C98.

(** A signing account, as [mnemonicToAccount] derives it. *)
Record Account := { account_address : Address }.

(** ** Errors *)

(** What a client action can reject with.  The first three are the failures
    of [eth_createAccessList] the README records. *)
Inductive ClientError :=
| MethodNotWhitelisted
| HandlerCrashed
| GasEstimation (have want : Z)
| ContractReverted (reason : string)
| HttpRequestFailed
| WaitForReceiptTimeout
| RpcFailure (code : Z) (message : string).

(** What ends a run abnormally.  [ChainUndefined] is the [TypeError] of
    reading [chain.id] when [chain] is undefined. *)
Inductive Thrown :=
| ClientRejected (e : ClientError)
| InvalidDecimalNumber (value : string)
| IntegerOutOfRange (n : Z)
| AbiEncodingMismatch
| ChainUndefined
| InvalidMnemonic
| UrlRequired
| PleaseAdd (tokenSymbol : string)
| AccountRequired.

Inductive Result (A : Type) :=
| Return (a : A)
| Throw (e : Thrown).
Arguments Return {A} a.
Arguments Throw {A} e.

Inductive Response (A : Type) :=
| Ok (a : A)
| Rejected (e : ClientError).
Arguments Ok {A} a.
Arguments Rejected {A} e.

(** ** ABI encoding (viem's [encodeFunctionData] on [erc20Abi]) *)

Inductive AbiType := TAddress | TUint256.
Inductive AbiValue := VAddress (a : Address) | VUint (n : Z).

Inductive Erc20Function :=
| allowance | approve | balanceOf | decimals | name_ | symbol
| totalSupply | transfer | transferFrom.

Definition erc20Abi_inputs (f : Erc20Function) : list AbiType :=
  match f with
  | allowance => [TAddress; TAddress]
  | approve => [TAddress; TUint256]
  | balanceOf => [TAddress]
  | decimals => []
  | name_ => []
  | symbol => []
  | totalSupply => []
  | transfer => [TAddress; TUint256]
  | transferFrom => [TAddress; TAddress; TUint256]
  end.

(** The four-byte selectors of the functions of [erc20Abi]. *)
Definition selector (f : Erc20Function) : list Z :=
  match f with
  | allowance => [0xdd; 0x62; 0xed; 0x3e]
  | approve => [0x09; 0x5e; 0xa7; 0xb3]
  | balanceOf => [0x70; 0xa0; 0x82; 0x31]
  | decimals => [0x31; 0x3c; 0xe5; 0x67]
  | name_ => [0x06; 0xfd; 0xde; 0x03]
  | symbol => [0x95; 0xd8; 0x9b; 0x41]
  | totalSupply => [0x18; 0x16; 0x0d; 0xdd]
  | transfer => [0xa9; 0x05; 0x9c; 0xbb]
  | transferFrom => [0x23; 0xb8; 0x72; 0xdd]
  end.

(** The [len] low-order bytes of [n], most significant first. *)
Fixpoint be_bytes (len : nat) (n : Z) : list Z :=
  match len with
  | O => []
  | S k => be_bytes k (Z.shiftr n 8) ++ [Z.land n 0xff]
  end.

Definition encode_word (t : AbiType) (v : AbiValue) : Result (list Z) :=
  match t, v with
  | TAddress, VAddress a => Return (be_bytes 32 a)
  | TUint256, VUint n =>
      if (0 <=? n) && (n <? 2 ^ 256) then Return (be_bytes 32 n)
      else Throw (IntegerOutOfRange n)
  | _, _ => Throw AbiEncodingMismatch
  end.

Fixpoint encodeAbiParameters (ts : list AbiType) (vs : list AbiValue)
  : Result (list Z) :=
  match ts, vs with
  | [], [] => Return []
  | t :: ts', v :: vs' =>
      match encode_word t v with
      | Throw e => Throw e
      | Return w =>
          match encodeAbiParameters ts' vs' with
          | Throw e => Throw e
          | Return ws => Return (w ++ ws)
          end
      end
  | _, _ => Throw AbiEncodingMismatch
  end.

Definition encodeFunctionData (f : Erc20Function) (args : list AbiValue)
  : Result Calldata :=
  match encodeAbiParameters (erc20Abi_inputs f) args with
  | Throw e => Throw e
  | Return ws => Return (selector f ++ ws)
  end.

(** Lower-case hexadecimal rendering of a byte string, with the [0x]
    prefix, as the README prints call data. *)
Definition hex_digit (n : Z) : string :=
  match n with
  | 0 => "0" | 1 => "1" | 2 => "2" | 3 => "3" | 4 => "4" | 5 => "5"
  | 6 => "6" | 7 => "7" | 8 => "8" | 9 => "9" | 10 => "a" | 11 => "b"
  | 12 => "c" | 13 => "d" | 14 => "e" | _ => "f"
  end.

Fixpoint hex_of_bytes (bs : list Z) : string :=
  match bs with
  | [] => ""
  | b :: bs' =>
      (hex_digit (Z.shiftr b 4) ++ hex_digit (Z.land b 0xf) ++ hex_of_bytes bs')%string
  end.

Definition to_hex (bs : list Z) : string := ("0x" ++ hex_of_bytes bs)%string.

(** ** Decimal amounts (viem's [parseUnits]) *)

Definition is_digit (c : ascii) : bool :=
  let n := nat_of_ascii c in (48 <=? n)%nat && (n <=? 57)%nat.

Definition digit_value (c : ascii) : Z := Z.of_nat (nat_of_ascii c) - 48.

(** The leading run of decimal digits of [s], as digit values, and the rest. *)
Fixpoint read_digits (s : string) : list Z * string :=
  match s with
  | EmptyString => ([], EmptyString)
  | String c s' =>
      if is_digit c then
        let (ds, rest) := read_digits s' in (digit_value c :: ds, rest)
      else ([], s)
  end.

(** The accepted shape: an optional minus sign, integer digits, an optional
    dot, fraction digits; each run of digits may be empty.  A value without
    a dot has the fraction [0]. *)
Definition parse_decimal (value : string) : option (bool * list Z * list Z) :=
  let (negative, body) :=
    match value with
    | String "-" rest => (true, rest)
    | _ => (false, value)
    end in
  let (int_digits, rest) := read_digits body in
  match rest with
  | EmptyString => Some (negative, int_digits, [0])
  | String "." rest' =>
      let (frac_digits, rest'') := read_digits rest' in
      match rest'' with
      | EmptyString => Some (negative, int_digits, frac_digits)
      | _ => None
      end
  | _ => None
  end.

Fixpoint digits_value (acc : Z) (ds : list Z) : Z :=
  match ds with
  | [] => acc
  | d :: ds' => digits_value (acc * 10 + d) ds'
  end.

(** Shift [decimals] fraction digits into the accumulator, padding with
    zeros when the fraction is shorter; when it is longer, the first
    discarded digit rounds the result half up. *)
Fixpoint scale_fraction (decimals : nat) (frac : list Z) (acc : Z) : Z :=
  match decimals with
  | O =>
      match frac with
      | d :: _ => if 5 <=? d then acc + 1 else acc
      | [] => acc
      end
  | S k =>
      match frac with
      | [] => scale_fraction k [] (acc * 10)
      | d :: frac' => scale_fraction k frac' (acc * 10 + d)
      end
  end.

(** [parseUnits(value, decimals)]: the value times ten to the [decimals], as
    an integer; digits beyond the precision are rounded half up on the
    magnitude.  viem rounds through a JavaScript number; the decimal
    rounding here agrees with it on every value whose discarded digits are
    not within floating-point distance of one half, [0.01] included.  A
    value without any digit, which viem does not convert, is read as zero
    here; the script passes [0.01] only. *)
Definition parseUnits (value : string) (decimals : nat) : Result Z :=
  match parse_decimal value with
  | None => Throw (InvalidDecimalNumber value)
  | Some (negative, int_digits, frac_digits) =>
      let magnitude := scale_fraction decimals frac_digits (digits_value 0 int_digits) in
      Return (if negative then - magnitude else magnitude)
  end.


(** ** Requests, results and the trace of a run *)

(** The parameters of [simulateContract]; the [request] it returns has the
    same fields ([abi] is [erc20Abi] throughout). *)
Record ContractRequest := {
  req_account : Address;
  req_address : Address;
  req_functionName : Erc20Function;
  req_args : list AbiValue
}.

(** The [eth_call] behind a simulation. *)
Record CallRequest := {
  call_from : Address;
  call_to : Address;
  call_data : Calldata
}.

Record SimulateResult := {
  sim_result : bool;
  sim_request : ContractRequest
}.

(** The parameters of [createAccessList]; [gas] is optional in viem. *)
Record AccessListParams := {
  al_account : Address;
  al_to : Address;
  al_data : Calldata;
  al_value : Z;
  al_gas : option Z
}.

Record AccessListEntry := {
  entry_address : Address;
  entry_storageKeys : list Z
}.

Record AccessListResult := {
  accessList : list AccessListEntry;
  gasUsed : Z
}.

(** The parameters of [waitForTransactionReceipt]; the polling interval and
    the timeout are optional in viem. *)
Record WaitParams := {
  wait_hash : Hash;
  wait_pollingInterval : option Z;
  wait_timeout : option Z
}.

Inductive TxStatus := success | reverted.

Record TransactionReceipt := {
  receipt_transactionHash : Hash;
  receipt_status : TxStatus;
  receipt_gasUsed : Z;
  receipt_blockNumber : Z
}.

(** The lines the script prints, by content. *)
Inductive LogLine :=
| LogRpcUrl (url : string)
| LogFallbackAccount (a : Address) (c : ChainName)
| LogSetMnemonic
| LogDetermining (a : Address) (c : ChainName)
| LogNativeBalance (balance : Z) (currency : string)
| LogTokenBalance (balance : Z) (tokenDecimals : nat) (tokenSymbol : string)
| LogSimulating (amount : string) (tokenSymbol : string)
| LogSending (amount : string) (tokenSymbol : string)
| LogRequest (r : ContractRequest)
| LogAccessListResult (r : AccessListResult)
| LogSkipping
| LogCompletedReadOnly
| LogWaiting (txHash : Hash)
| LogReceipt (r : TransactionReceipt).

(** One event per console line and per call of a client action. *)
Inductive Event :=
| Console (l : LogLine)
| GetBalance (a : Address)
| ReadContract (address : Address) (functionName : Erc20Function) (args : list AbiValue)
| SimulateContract (p : ContractRequest)
| CreateAccessList (p : AccessListParams)
| WriteContract (r : ContractRequest) (signer : Account)
| WaitForTransactionReceipt (p : WaitParams).

(** The four independent reads of the script. *)
Inductive ReadQuery := NativeBalance | TokenSymbol | TokenDecimals | TokenBalance.

(** What the endpoint behind a URL answers to each client action, and when
    the answer to each read arrives. *)
Record Node := {
  node_getBalance : Address -> Response Z;
  node_symbol : Address -> Response string;
  node_decimals : Address -> Response nat;
  node_balanceOf : Address -> Address -> Response Z;
  node_call : CallRequest -> Response bool;
  node_createAccessList : AccessListParams -> Response AccessListResult;
  node_writeContract : ContractRequest -> Account -> Response Hash;
  node_waitForTransactionReceipt : WaitParams -> Response TransactionReceipt;
  arrival : ReadQuery -> nat
}.

(** ** The flow monad: a trace and a result or the thrown value *)

Definition M (A : Type) : Type := (list Event * Result A)%type.

Definition ret {A} (a : A) : M A := ([], Return a).
Definition throw {A} (e : Thrown) : M A := ([], Throw e).
Definition emit (ev : Event) : M unit := ([ev], Return tt).

Definition bind {A B} (m : M A) (k : A -> M B) : M B :=
  match m with
  | (t, Return a) => let (t', r) := k a in (t ++ t', r)
  | (t, Throw e) => (t, Throw e)
  end.

Declare Scope flow_scope.
Delimit Scope flow_scope with flow.
Notation "x <- m ;; k" := (bind m (fun x => k))
  (at level 61, m at next level, right associativity) : flow_scope.
Notation "m ;; k" := (bind m (fun _ => k))
  (at level 61, right associativity) : flow_scope.
Local Open Scope flow_scope.

(** A promise is modelled by what it settles to. *)
Definition Promise := Result.

Definition settle {A} (r : Response A) : Promise A :=
  match r with
  | Ok a => Return a
  | Rejected e => Throw (ClientRejected e)
  end.

Definition await {A} (p : Promise A) : M A := ([], p).

(** A synchronous call that may throw. *)
Definition eval {A} (r : Result A) : M A := ([], r).

Definition trace {A} (m : M A) : list Event := fst m.
Definition outcome {A} (m : M A) : Result A := snd m.

(** ** Client actions (viem) *)

Definition getBalance (n : Node) (a : Address) : M (Promise Z) :=
  emit (GetBalance a) ;; ret (settle (node_getBalance n a)).

Definition readContract_symbol (n : Node) (token : Address) : M (Promise string) :=
  emit (ReadContract token symbol []) ;; ret (settle (node_symbol n token)).

Definition readContract_decimals (n : Node) (token : Address) : M (Promise nat) :=
  emit (ReadContract token decimals []) ;; ret (settle (node_decimals n token)).

Definition readContract_balanceOf (n : Node) (token owner : Address) : M (Promise Z) :=
  emit (ReadContract token balanceOf [VAddress owner]) ;;
  ret (settle (node_balanceOf n token owner)).

(** [simulateContract] encodes the call, dry-runs it with [eth_call] and, when
    the call does not revert, returns the decoded result with the request
    it was given. *)
Definition dry_run (n : Node) (p : ContractRequest) : Promise SimulateResult :=
  match encodeFunctionData (req_functionName p) (req_args p) with
  | Throw e => Throw e
  | Return data =>
      match node_call n {| call_from := req_account p;
                           call_to := req_address p;
                           call_data := data |} with
      | Rejected e => Throw (ClientRejected e)
      | Ok r => Return {| sim_result := r; sim_request := p |}
      end
  end.

Definition simulateContract (n : Node) (p : ContractRequest) : M (Promise SimulateResult) :=
  emit (SimulateContract p) ;; ret (dry_run n p).

Definition createAccessList (n : Node) (p : AccessListParams) : M (Promise AccessListResult) :=
  emit (CreateAccessList p) ;; ret (settle (node_createAccessList n p)).

Definition writeContract (n : Node) (r : ContractRequest) (signer : Account) : M (Promise Hash) :=
  emit (WriteContract r signer) ;; ret (settle (node_writeContract n r signer)).

Definition waitForTransactionReceipt (n : Node) (p : WaitParams) : M (Promise TransactionReceipt) :=
  emit (WaitForTransactionReceipt p) ;;
  ret (settle (node_waitForTransactionReceipt n p)).

(** [Promise.all] of three promises: the values when all fulfil, otherwise
    the rejection that arrives first (array order breaks ties). *)
Definition Promise_all {A B C} (t1 t2 t3 : nat)
  (p1 : Promise A) (p2 : Promise B) (p3 : Promise C) : Promise (A * B * C) :=
  match p1, p2, p3 with
  | Return a, Return b, Return c => Return (a, b, c)
  | Throw e, Return _, Return _ => Throw e
  | Return _, Throw e, Return _ => Throw e
  | Return _, Return _, Throw e => Throw e
  | Throw e1, Throw e2, Return _ => Throw (if (t1 <=? t2)%nat then e1 else e2)
  | Throw e1, Return _, Throw e3 => Throw (if (t1 <=? t3)%nat then e1 else e3)
  | Return _, Throw e2, Throw e3 => Throw (if (t2 <=? t3)%nat then e2 else e3)
  | Throw e1, Throw e2, Throw e3 =>
      Throw (if (t1 <=? t2)%nat
             then (if (t1 <=? t3)%nat then e1 else e3)
             else (if (t2 <=? t3)%nat then e2 else e3))
  end.

(** ** Module-level configuration *)

(** What the process is started with, and the world it talks to.
    [argv_chain] holds the values given to [--chain] or [-c], in order; each
    has passed yargs' [choices].  [argv_rpc_url] is the value of
    [--rpc-url]; a repeated [--rpc-url] reaches the script as an array, which
    the script and the transport use through its string form only, the
    values joined by commas, and that string stands for it here. *)
Record World := {
  argv_chain : list ChainName;
  argv_rpc_url : option string;
  env : string -> option string;
  mnemonicToAccount : string -> option Account;
  endpoint : string -> Node
}.

(** [argv.chain] as yargs returns it: a name, or an array of names when the
    flag is repeated. *)
Inductive ChainArg :=
| ChainString (c : ChainName)
| ChainArray (cs : list ChainName).

(** Lines 41-47 and 69: the default [base] when the flag is absent, the
    value when it is given once, the array of the values otherwise. *)
Definition argv_chain_value (w : World) : ChainArg :=
  match argv_chain w with
  | [] => ChainString chain_base
  | [c] => ChainString c
  | cs => ChainArray cs
  end.

(** Line 72: [CHAINS_BY_NAME[chainName]].  An array is no key of the table,
    so the lookup is undefined. *)
Definition selected_chain (w : World) : option Chain :=
  match argv_chain_value w with
  | ChainString c => Some (CHAINS_BY_NAME c)
  | ChainArray _ => None
  end.

(** JavaScript truthiness of a possibly undefined string. *)
Definition truthy (s : option string) : bool :=
  match s with
  | None => false
  | Some EmptyString => false
  | Some _ => true
  end.

(** [a || b] on possibly undefined strings. *)
Definition or_else (a b : option string) : option string :=
  if truthy a then a else b.

(** The chain name, when [argv.chain] is one.  With an array the script
    stops at line 73, before it uses the name. *)
Definition chainName (w : World) : ChainName :=
  match argv_chain_value w with
  | ChainString c => c
  | ChainArray _ => chain_base
  end.

Definition chain (w : World) : Chain := CHAINS_BY_NAME (chainName w).

Definition tokenAddress (w : World) : Address :=
  match TOKEN_ADDRESS_BY_CHAIN (chain_id (chain w)) with
  | Some a => a
  | None => 0
  end.

Definition MNEMONIC (w : World) : option string := env w "MNEMONIC".

(** Lines 78-83: the custom URL if provided, otherwise the environment
    variable of the chain. *)
Definition rpcUrl (w : World) : option string :=
  if truthy (argv_rpc_url w) then argv_rpc_url w
  else env w (RPC_ENV_VAR_BY_CHAIN (chainName w)).

(** viem's [http(url)] transport, resolved for a chain: the given URL, or
    the chain's first default RPC URL; [UrlRequiredError] when neither
    exists. *)
Definition http (url : option string) (c : Chain) : Result string :=
  match or_else url (hd_error (rpcUrls_default_http c)) with
  | Some u => if truthy (Some u) then Return u else Throw UrlRequired
  | None => Throw UrlRequired
  end.

Definition isUsingFallback (w : World) : bool := negb (truthy (MNEMONIC w)).

Record Setup := {
  setup_chainName : ChainName;
  setup_chain : Chain;
  setup_tokenAddress : Address;
  setup_isUsingFallback : bool;
  setup_account : option Account;
  setup_accountAddress : Address;
  setup_url : string
}.

(** Line 89: the derived account when a mnemonic is set, [null] otherwise.
    [mnemonicToAccount] throws on a mnemonic it cannot use. *)
Definition account (w : World) : Result (option Account) :=
  match MNEMONIC w with
  | Some m =>
      if truthy (Some m)
      then match mnemonicToAccount w m with
           | Some a => Return (Some a)
           | None => Throw InvalidMnemonic
           end
      else Return None
  | None => Return None
  end.

(** Lines 69-99.  Reading [chain.id] at line 73 throws when the chain is
    undefined; the account is derived before the clients are created. *)
Definition setup (w : World) : Result Setup :=
  match selected_chain w with
  | None => Throw ChainUndefined
  | Some _ =>
  match account w with
  | Throw e => Throw e
  | Return acct =>
      match http (rpcUrl w) (chain w) with
      | Throw e => Throw e
      | Return url =>
          Return {| setup_chainName := chainName w;
                    setup_chain := chain w;
                    setup_tokenAddress := tokenAddress w;
                    setup_isUsingFallback := isUsingFallback w;
                    setup_account := acct;
                    setup_accountAddress :=
                      match acct with
                      | Some a => account_address a
                      | None => FALLBACK_ADDRESS
                      end;
                    setup_url := url |}
      end
  end
  end.

(** ** The main flow (lines 101-213) *)

Section Flow.

Variable s : Setup.
Variable n : Node.

Let accountAddress := setup_accountAddress s.
Let token := setup_tokenAddress s.
Let fallback := setup_isUsingFallback s.

(** Lines 102-143: startup lines, native balance, then the three token
    reads fired together and joined. *)
Definition read_balances : M (Z * string * nat * Z) :=
  emit (Console (LogRpcUrl (setup_url s))) ;;
  (if fallback
   then emit (Console (LogFallbackAccount accountAddress (setup_chainName s))) ;;
        emit (Console LogSetMnemonic)
   else ret tt) ;;
  emit (Console (LogDetermining accountAddress (setup_chainName s))) ;;
  p0 <- getBalance n accountAddress ;;
  nativeBalance <- await p0 ;;
  emit (Console (LogNativeBalance nativeBalance
                   (nativeCurrency_symbol (setup_chain s)))) ;;
  p1 <- readContract_symbol n token ;;
  p2 <- readContract_decimals n token ;;
  p3 <- readContract_balanceOf n token accountAddress ;;
  r <- await (Promise_all (arrival n TokenSymbol) (arrival n TokenDecimals)
                (arrival n TokenBalance) p1 p2 p3) ;;
  let '(tokenSymbol, tokenDecimals, tokenBalance) := r in
  emit (Console (LogTokenBalance tokenBalance tokenDecimals tokenSymbol)) ;;
  ret (nativeBalance, tokenSymbol, tokenDecimals, tokenBalance).

(** Lines 145-148. *)
Definition check_token_balance (tokenSymbol : string) (tokenBalance : Z) : M unit :=
  if (tokenBalance <=? 0) && negb fallback
  then throw (PleaseAdd tokenSymbol)
  else ret tt.

(** Lines 150-174: the intent line and the dry run of the self-transfer. *)
Definition simulate_transfer (tokenSymbol : string) (tokenDecimals : nat)
  : M ContractRequest :=
  emit (Console (if fallback
                 then LogSimulating TOKEN_SEND_AMOUNT tokenSymbol
                 else LogSending TOKEN_SEND_AMOUNT tokenSymbol)) ;;
  amount <- eval (parseUnits TOKEN_SEND_AMOUNT tokenDecimals) ;;
  p <- simulateContract n {| req_account := accountAddress;
                             req_address := token;
                             req_functionName := transfer;
                             req_args := [VAddress accountAddress; VUint amount] |} ;;
  r <- await p ;;
  let request := sim_request r in
  emit (Console (LogRequest request)) ;;
  ret request.

(** Lines 176-188. *)
Definition request_access_list (request : ContractRequest) : M AccessListResult :=
  data <- eval (encodeFunctionData (req_functionName request) (req_args request)) ;;
  p <- createAccessList n {| al_account := accountAddress;
                             al_to := req_address request;
                             al_data := data;
                             al_value := 0;
                             al_gas := None |} ;;
  result <- await p ;;
  emit (Console (LogAccessListResult result)) ;;
  ret result.

(** Lines 197-212. *)
Definition send_transaction (account : option Account) (request : ContractRequest)
  : M TransactionReceipt :=
  match account with
  | None => throw AccountRequired
  | Some signer =>
      p <- writeContract n request signer ;;
      txHash <- await p ;;
      emit (Console (LogWaiting txHash)) ;;
      q <- waitForTransactionReceipt n {| wait_hash := txHash;
                                          wait_pollingInterval := None;
                                          wait_timeout := None |} ;;
      txReceipt <- await q ;;
      emit (Console (LogReceipt txReceipt)) ;;
      ret txReceipt
  end.

(** How a run that does not throw ends. *)
Inductive Completion :=
| CompletedReadOnly
| Sent (r : TransactionReceipt).

Definition main : M Completion :=
  b <- read_balances ;;
  let '(_, tokenSymbol, tokenDecimals, tokenBalance) := b in
  check_token_balance tokenSymbol tokenBalance ;;
  request <- simulate_transfer tokenSymbol tokenDecimals ;;
  request_access_list request ;;
  if fallback
  then emit (Console LogSkipping) ;;
       emit (Console LogCompletedReadOnly) ;;
       ret CompletedReadOnly
  else r <- send_transaction (setup_account s) request ;;
       ret (Sent r).

End Flow.

(** The whole script: module-level setup, then the main flow against the
    endpoint behind the resolved URL. *)
Definition run (w : World) : M Completion :=
  match setup w with
  | Throw e => ([], Throw e)
  | Return s => main s (endpoint w (setup_url s))
  end.

(** ** Providers, as the README tabulates them *)

Inductive Provider :=
| BaseAlchemy | BasePublicRPC | CeloForno | CeloAlchemy | CeloQuickNode.

(** The table "Without Gas Param / With Gas Param" of the README, with the
    figures of its error details; [works] is what a working provider
    returns. *)
Definition provider_createAccessList (p : Provider) (works : AccessListResult)
  (q : AccessListParams) : Response AccessListResult :=
  match p, al_gas q with
  | BaseAlchemy, _ => Ok works
  | BasePublicRPC, None => Rejected (GasEstimation 99568782918001 3000355200000000)
  | BasePublicRPC, Some _ => Ok works
  | CeloForno, None => Rejected (GasEstimation 95318937765000000 2500050000000000000)
  | CeloForno, Some _ => Ok works
  | CeloAlchemy, _ => Rejected HandlerCrashed
  | CeloQuickNode, None => Rejected (GasEstimation 99063787553000000 30000600000000000000)
  | CeloQuickNode, Some _ => Ok works
  end.


Definition with_gas (q : AccessListParams) (g : option Z) : AccessListParams :=
  {| al_account := al_account q; al_to := al_to q; al_data := al_data q;
     al_value := al_value q; al_gas := g |}.

(** ** Projections of a trace *)

(** The transaction-bearing client actions. *)
Inductive TxOp := OpSimulate | OpAccessList | OpSubmit | OpPoll.

Definition tx_op (ev : Event) : option TxOp :=
  match ev with
  | SimulateContract _ => Some OpSimulate
  | CreateAccessList _ => Some OpAccessList
  | WriteContract _ _ => Some OpSubmit
  | WaitForTransactionReceipt _ => Some OpPoll
  | _ => None
  end.

Fixpoint tx_ops (t : list Event) : list TxOp :=
  match t with
  | [] => []
  | ev :: t' =>
      match tx_op ev with
      | Some o => o :: tx_ops t'
      | None => tx_ops t'
      end
  end.

Definition tx_order : list TxOp := [OpSimulate; OpAccessList; OpSubmit; OpPoll].

Definition is_submit (ev : Event) : bool :=
  match ev with WriteContract _ _ => true | _ => false end.

Definition is_poll (ev : Event) : bool :=
  match ev with WaitForTransactionReceipt _ => true | _ => false end.

Definition submissions (t : list Event) : nat := List.length (filter is_submit t).

(** The account a client action is made for, when it names one:
    [inl] an address only, [inr] an account that can sign. *)
Definition action_account (ev : Event) : option (Address + Account) :=
  match ev with
  | Console _ => None
  | GetBalance a => Some (inl a)
  | ReadContract _ _ _ => None
  | SimulateContract p => Some (inl (req_account p))
  | CreateAccessList p => Some (inl (al_account p))
  | WriteContract _ signer => Some (inr signer)
  | WaitForTransactionReceipt _ => None
  end.

(** Reads and dry runs: the actions that change nothing on chain. *)
Definition is_read_or_dry_run (ev : Event) : bool :=
  match ev with
  | WriteContract _ _ | WaitForTransactionReceipt _ => false
  | _ => true
  end.

(** ** Sample worlds *)

Definition sample_accessList : AccessListResult :=
  {| accessList :=
       [ {| entry_address := 0x833589fcd6edb6e08f4c7c32d4f71b54bda02913;
            entry_storageKeys := [] |};
         {| entry_address := 0x2ce6311ddae708829bc0784c967b7d77d19fd779;
            entry_storageKeys := [] |} ];
     gasUsed := 39347 |}.

Definition sample_receipt (h : Hash) : TransactionReceipt :=
  {| receipt_transactionHash := h; receipt_status := success;
     receipt_gasUsed := 39347; receipt_blockNumber := 1 |}.

(** A node holding 0.1 ETH for every account and accepting every transfer;
    the token has [tokenDecimals] decimals, every account holds
    [tokenBalance] of it, [al] answers the access-list requests and [wait]
    the receipt waits. *)
Definition sample_node (tokenDecimals : nat) (tokenBalance : Z)
  (al : AccessListParams -> Response AccessListResult)
  (wait : WaitParams -> Response TransactionReceipt) : Node :=
  {| node_getBalance := fun _ => Ok 0x16345785d8a0000;
     node_symbol := fun _ => Ok "USDC";
     node_decimals := fun _ => Ok tokenDecimals;
     node_balanceOf := fun _ _ => Ok tokenBalance;
     node_call := fun _ => Ok true;
     node_createAccessList := al;
     node_writeContract := fun _ _ => Ok 0xabc;
     node_waitForTransactionReceipt := wait;
     arrival := fun _ => 0%nat |}.

Definition receipt_found (p : WaitParams) : Response TransactionReceipt :=
  Ok (sample_receipt (wait_hash p)).

Definition sample_signer : Account := {| account_address := 0x1234 |}.

Definition sample_world (c : option ChainName) (mnemonic rpc : option string)
  (n : Node) : World :=
  {| argv_chain := match c with Some c' => [c'] | None => [] end;
     argv_rpc_url := rpc;
     env := fun v => if String.eqb v "MNEMONIC" then mnemonic else None;
     mnemonicToAccount := fun _ => Some sample_signer;
     endpoint := fun _ => n |}.

Definition sample_setup (c : ChainName) (account : option Account) (url : string)
  : Setup :=
  {| setup_chainName := c;
     setup_chain := CHAINS_BY_NAME c;
     setup_tokenAddress :=
       match c with
       | chain_base => 0x833589fcd6edb6e08f4c7c32d4f71b54bda02913
       | chain_celo => 0xceba9300f2b948710d2653dd7b07f33a8b32118c
       end;
     setup_isUsingFallback :=
       match account with Some _ => false | None => true end;
     setup_account := account;
     setup_accountAddress :=
       match account with
       | Some a => account_address a
       | None => FALLBACK_ADDRESS
       end;
     setup_url := url |}.

(** Base through a working provider. *)
Definition node_alchemy (tokenDecimals : nat) (tokenBalance : Z) : Node :=
  sample_node tokenDecimals tokenBalance
    (provider_createAccessList BaseAlchemy sample_accessList) receipt_found.

(** No mnemonic, no URL: read-only mode on the default chain. *)
Definition world_read_only : World :=
  sample_world None None None (node_alchemy 6 1000000).

Definition setup_read_only : Setup :=
  sample_setup chain_base None "https://mainnet.base.org".

(** A mnemonic, Base, a working provider. *)
Definition world_signing : World :=
  sample_world (Some chain_base) (Some "test test test") None (node_alchemy 6 1000000).

Definition setup_signing : Setup :=
  sample_setup chain_base (Some sample_signer) "https://mainnet.base.org".

(** A mnemonic, Celo through Forno as the README first records it: the
    method is not whitelisted. *)
Definition node_forno : Node :=
  sample_node 6 1000000 (fun _ => Rejected MethodNotWhitelisted) receipt_found.

Definition world_forno : World :=
  sample_world (Some chain_celo) (Some "test test test") None node_forno.

Definition setup_forno : Setup :=
  sample_setup chain_celo (Some sample_signer) "https://forno.celo.org".

(** Celo through QuickNode, as the README's table records it. *)
Definition node_quicknode : Node :=
  sample_node 6 1000000
    (provider_createAccessList CeloQuickNode sample_accessList) receipt_found.

(** The transfer call data for an account and an amount. *)
Definition transfer_data (a : Address) (amount : Z) : Calldata :=
  selector transfer ++ be_bytes 32 a ++ be_bytes 32 amount.

Definition access_list_request (s : Setup) (amount : Z) : AccessListParams :=
  {| al_account := setup_accountAddress s;
     al_to := setup_tokenAddress s;
     al_data := transfer_data (setup_accountAddress s) amount;
     al_value := 0;
     al_gas := None |}.

Definition transfer_request (s : Setup) (amount : Z) : ContractRequest :=
  {| req_account := setup_accountAddress s;
     req_address := setup_tokenAddress s;
     req_functionName := transfer;
     req_args := [VAddress (setup_accountAddress s); VUint amount] |}.

(** A mnemonic and Celo through QuickNode. *)
Definition world_quicknode : World :=
  sample_world (Some chain_celo) (Some "test test test")
    (Some "https://example.quiknode.pro") node_quicknode.

(** A mnemonic and an account without tokens. *)
Definition world_signing_empty : World :=
  sample_world (Some chain_base) (Some "test test test") None (node_alchemy 6 0).

(** A token with one decimal, read-only mode. *)
Definition world_one_decimal : World :=
  sample_world None None None (node_alchemy 1 1000000).

(** A mnemonic and a transaction whose receipt never comes. *)
Definition node_no_receipt : Node :=
  sample_node 6 1000000 (provider_createAccessList BaseAlchemy sample_accessList)
    (fun _ => Rejected WaitForReceiptTimeout).

Definition world_no_receipt : World :=
  sample_world (Some chain_base) (Some "test test test") None node_no_receipt.

Definition sample_wait : WaitParams :=
  {| wait_hash := 0xabc; wait_pollingInterval := None; wait_timeout := None |}.

(** Two reads rejected, for different reasons: the symbol's answer arrives
    at [t_symbol], the decimals' at [t_decimals]. *)
Definition node_two_rejections (t_symbol t_decimals : nat) : Node :=
  {| node_getBalance := fun _ => Rejected HttpRequestFailed;
     node_symbol := fun _ => Rejected HandlerCrashed;
     node_decimals := fun _ => Rejected (RpcFailure (-32000) "execution aborted");
     node_balanceOf := fun _ _ => Ok 1000000;
     node_call := fun _ => Ok true;
     node_createAccessList := fun _ => Ok sample_accessList;
     node_writeContract := fun _ _ => Ok 0xabc;
     node_waitForTransactionReceipt := receipt_found;
     arrival := fun q =>
       match q with
       | TokenSymbol => t_symbol
       | TokenDecimals => t_decimals
       | _ => 0%nat
       end |}.

(** The same, with the native balance answered. *)
Definition node_token_rejections (t_symbol t_decimals : nat) : Node :=
  {| node_getBalance := fun _ => Ok 0x16345785d8a0000;
     node_symbol := node_symbol (node_two_rejections t_symbol t_decimals);
     node_decimals := node_decimals (node_two_rejections t_symbol t_decimals);
     node_balanceOf := fun _ _ => Ok 1000000;
     node_call := fun _ => Ok true;
     node_createAccessList := fun _ => Ok sample_accessList;
     node_writeContract := fun _ _ => Ok 0xabc;
     node_waitForTransactionReceipt := receipt_found;
     arrival := arrival (node_two_rejections t_symbol t_decimals) |}.

(** ** Derived notions used by the properties *)

(** What [parseUnits] makes of [TOKEN_SEND_AMOUNT]. *)
Definition send_amount (tokenDecimals : nat) : Z :=
  scale_fraction tokenDecimals [0; 1] 0.

Definition is_console (ev : Event) : bool :=
  match ev with Console _ => true | _ => false end.

(** Nothing but console lines follows the first receipt wait. *)
Fixpoint quiet_after_poll (t : list Event) : bool :=
  match t with
  | [] => true
  | ev :: t' => if is_poll ev then forallb is_console t' else quiet_after_poll t'
  end.

(** A read or dry run that names no account other than the address [a]. *)
Definition read_only_event (a : Address) (ev : Event) : Prop :=
  is_read_or_dry_run ev = true
  /\ forall who, action_account ev = Some who -> who = inl a.

(** ** The four reads in another order *)

(** What the reads have produced so far. *)
Record Reads := {
  read_native : option Z;
  read_symbol : option string;
  read_decimals : option nat;
  read_balance : option Z
}.

Definition no_reads : Reads :=
  {| read_native := None; read_symbol := None;
     read_decimals := None; read_balance := None |}.

(** The order of the script: native balance, then symbol, decimals and
    token balance. *)
Definition script_order : list ReadQuery :=
  [NativeBalance; TokenSymbol; TokenDecimals; TokenBalance].

(** The value of a read in a record of results. *)
Inductive ReadValue :=
| IntValue (z : Z)
| TextValue (t : string)
| NatValue (k : nat).

Definition ReadQuery_eq_dec (a b : ReadQuery) : {a = b} + {a <> b}.
Proof. decide equality. Defined.

Section ReadsInOrder.

Variable s : Setup.
Variable n : Node.

(** One read of [read_balances], issued and awaited on its own. *)
Definition issue_read (q : ReadQuery) (acc : Reads) : M Reads :=
  match q with
  | NativeBalance =>
      p <- getBalance n (setup_accountAddress s) ;;
      v <- await p ;;
      ret {| read_native := Some v; read_symbol := read_symbol acc;
             read_decimals := read_decimals acc; read_balance := read_balance acc |}
  | TokenSymbol =>
      p <- readContract_symbol n (setup_tokenAddress s) ;;
      v <- await p ;;
      ret {| read_native := read_native acc; read_symbol := Some v;
             read_decimals := read_decimals acc; read_balance := read_balance acc |}
  | TokenDecimals =>
      p <- readContract_decimals n (setup_tokenAddress s) ;;
      v <- await p ;;
      ret {| read_native := read_native acc; read_symbol := read_symbol acc;
             read_decimals := Some v; read_balance := read_balance acc |}
  | TokenBalance =>
      p <- readContract_balanceOf n (setup_tokenAddress s) (setup_accountAddress s) ;;
      v <- await p ;;
      ret {| read_native := read_native acc; read_symbol := read_symbol acc;
             read_decimals := read_decimals acc; read_balance := Some v |}
  end.

(** The reads issued one after the other in a given order, each awaited
    before the next is issued. *)
Fixpoint issue_reads (order : list ReadQuery) (acc : Reads) : M Reads :=
  match order with
  | [] => ret acc
  | q :: rest => acc' <- issue_read q acc ;; issue_reads rest acc'
  end.

(** The rejection the endpoint answers a read with, if it rejects it. *)
Definition read_rejection (q : ReadQuery) : option ClientError :=
  match q with
  | NativeBalance =>
      match node_getBalance n (setup_accountAddress s) with
      | Rejected e => Some e | Ok _ => None
      end
  | TokenSymbol =>
      match node_symbol n (setup_tokenAddress s) with
      | Rejected e => Some e | Ok _ => None
      end
  | TokenDecimals =>
      match node_decimals n (setup_tokenAddress s) with
      | Rejected e => Some e | Ok _ => None
      end
  | TokenBalance =>
      match node_balanceOf n (setup_tokenAddress s) (setup_accountAddress s) with
      | Rejected e => Some e | Ok _ => None
      end
  end.

Definition read_value (q : ReadQuery) (r : Reads) : option ReadValue :=
  match q with
  | NativeBalance => option_map IntValue (read_native r)
  | TokenSymbol => option_map TextValue (read_symbol r)
  | TokenDecimals => option_map NatValue (read_decimals r)
  | TokenBalance => option_map IntValue (read_balance r)
  end.

(** What the endpoint answers a read with, when it fulfils it. *)
Definition read_answer (q : ReadQuery) : option ReadValue :=
  match q with
  | NativeBalance =>
      match node_getBalance n (setup_accountAddress s) with
      | Ok v => Some (IntValue v) | Rejected _ => None
      end
  | TokenSymbol =>
      match node_symbol n (setup_tokenAddress s) with
      | Ok v => Some (TextValue v) | Rejected _ => None
      end
  | TokenDecimals =>
      match node_decimals n (setup_tokenAddress s) with
      | Ok v => Some (NatValue v) | Rejected _ => None
      end
  | TokenBalance =>
      match node_balanceOf n (setup_tokenAddress s) (setup_accountAddress s) with
      | Ok v => Some (IntValue v) | Rejected _ => None
      end
  end.

End ReadsInOrder.

(** ** Notions for the further properties *)

(** The contract a client action addresses. *)
Definition event_contract (ev : Event) : option Address :=
  match ev with
  | ReadContract a _ _ => Some a
  | SimulateContract p => Some (req_address p)
  | CreateAccessList p => Some (al_to p)
  | WriteContract r _ => Some (req_address r)
  | _ => None
  end.

Definition rejection_of {A} (r : Response A) : option ClientError :=
  match r with
  | Rejected e => Some e
  | Ok _ => None
  end.

(** The rejection the endpoint answers a client action with, if it rejects
    it.  A simulation whose call cannot be encoded is not sent, hence not
    rejected. *)
Definition action_rejection (n : Node) (ev : Event) : option ClientError :=
  match ev with
  | Console _ => None
  | GetBalance a => rejection_of (node_getBalance n a)
  | ReadContract token symbol [] => rejection_of (node_symbol n token)
  | ReadContract token decimals [] => rejection_of (node_decimals n token)
  | ReadContract token balanceOf [VAddress owner] =>
      rejection_of (node_balanceOf n token owner)
  | ReadContract _ _ _ => None
  | SimulateContract p =>
      match dry_run n p with
      | Throw (ClientRejected e) => Some e
      | _ => None
      end
  | CreateAccessList p => rejection_of (node_createAccessList n p)
  | WriteContract r a => rejection_of (node_writeContract n r a)
  | WaitForTransactionReceipt p => rejection_of (node_waitForTransactionReceipt n p)
  end.

Definition is_token_read (ev : Event) : bool :=
  match ev with ReadContract _ _ _ => true | _ => false end.

(** The three token reads of [read_balances], as events. *)
Definition token_reads (s : Setup) : list Event :=
  [ ReadContract (setup_tokenAddress s) symbol [];
    ReadContract (setup_tokenAddress s) decimals [];
    ReadContract (setup_tokenAddress s) balanceOf
      [VAddress (setup_accountAddress s)] ].

(** The world of [world_read_only], with the RPC variable of the other
    chain set as well. *)
Definition world_other_chain_variable : World :=
  {| argv_chain := [];
     argv_rpc_url := None;
     env := fun v => if String.eqb v "CELO_RPC_URL"
                     then Some "https://celo.example" else None;
     mnemonicToAccount := fun _ => Some sample_signer;
     endpoint := fun _ => node_alchemy 6 1000000 |}.

(** An empty [MNEMONIC], and a derivation that accepts nothing. *)
Definition world_empty_mnemonic : World :=
  {| argv_chain := [];
     argv_rpc_url := None;
     env := fun v => if String.eqb v "MNEMONIC" then Some "" else None;
     mnemonicToAccount := fun _ => None;
     endpoint := fun _ => node_alchemy 6 1000000 |}.


(** [--chain base --chain celo], with a mnemonic that would be accepted. *)
Definition world_repeated_chain : World :=
  {| argv_chain := [chain_base; chain_celo];
     argv_rpc_url := None;
     env := fun v => if String.eqb v "MNEMONIC" then Some "test test test" else None;
     mnemonicToAccount := fun _ => Some sample_signer;
     endpoint := fun _ => node_alchemy 6 1000000 |}.

(** A custom URL on the command line and another one in the environment;
    only the endpoint behind the custom URL answers. *)
Definition node_unreachable : Node :=
  {| node_getBalance := fun _ => Rejected HttpRequestFailed;
     node_symbol := fun _ => Rejected HttpRequestFailed;
     node_decimals := fun _ => Rejected HttpRequestFailed;
     node_balanceOf := fun _ _ => Rejected HttpRequestFailed;
     node_call := fun _ => Rejected HttpRequestFailed;
     node_createAccessList := fun _ => Rejected HttpRequestFailed;
     node_writeContract := fun _ _ => Rejected HttpRequestFailed;
     node_waitForTransactionReceipt := fun _ => Rejected HttpRequestFailed;
     arrival := fun _ => 0%nat |}.

Definition world_custom_url (environment_url : option string) : World :=
  {| argv_chain := [chain_base];
     argv_rpc_url := Some "https://base.llamarpc.com";
     env := fun v => if String.eqb v "BASE_RPC_URL" then environment_url else None;
     mnemonicToAccount := fun _ => Some sample_signer;
     endpoint := fun u => if String.eqb u "https://base.llamarpc.com"
                          then node_alchemy 6 1000000 else node_unreachable |}.

(** A token with eighty decimals, read-only mode. *)
Definition world_many_decimals : World :=
  sample_world None None None (node_alchemy 80 1000000).

(** * Properties *)

(** ** The amount and its encoding *)

Lemma parseUnits_send_amount (d : nat) :
  parseUnits TOKEN_SEND_AMOUNT d = Return (send_amount d).
Proof. reflexivity. Qed.

Lemma scale_fraction_nil (k : nat) (acc : Z) :
  scale_fraction k [] acc = acc * 10 ^ Z.of_nat k.
Proof.
  revert acc. induction k as [|k IH]; intro acc.
  - simpl. lia.
  - cbn [scale_fraction]. rewrite IH, Nat2Z.inj_succ, Z.pow_succ_r by lia. ring.
Qed.

Lemma send_amount_scaled (d : nat) :
  (2 <= d)%nat -> 100 * send_amount d = 10 ^ Z.of_nat d.
Proof.
  intro H. destruct d as [|[|k]]; try lia.
  unfold send_amount. cbn [scale_fraction]. rewrite scale_fraction_nil.
  rewrite !Nat2Z.inj_succ, !Z.pow_succ_r by lia. ring.
Qed.

Lemma send_amount_small (d : nat) : (d < 2)%nat -> send_amount d = 0.
Proof. intro H. destruct d as [|[|k]]; try lia; reflexivity. Qed.

Lemma send_amount_range (d : nat) :
  (d <= 79)%nat -> 0 <= send_amount d < 2 ^ 256.
Proof.
  intro H. destruct (Nat.lt_ge_cases d 2) as [Hs|Hg].
  - rewrite send_amount_small by assumption. split; [lia|reflexivity].
  - pose proof (send_amount_scaled d Hg) as E.
    assert (0 < 10 ^ Z.of_nat d) by (apply Z.pow_pos_nonneg; lia).
    assert (10 ^ Z.of_nat d <= 10 ^ 79) by (apply Z.pow_le_mono_r; lia).
    assert (10 ^ 79 < 100 * 2 ^ 256) by reflexivity.
    lia.
Qed.

(** Encoding [transfer(recipient, amount)] succeeds when the amount is a
    [uint256]. *)
Lemma encode_transfer (recipient : Address) (amount : Z) :
  0 <= amount < 2 ^ 256 ->
  encodeFunctionData transfer [VAddress recipient; VUint amount]
  = Return (transfer_data recipient amount).
Proof.
  intros [H0 H1]. unfold encodeFunctionData, erc20Abi_inputs, transfer_data.
  cbn [encodeAbiParameters encode_word].
  apply Z.leb_le in H0. apply Z.ltb_lt in H1. rewrite H0, H1. cbn [andb].
  rewrite app_nil_r. reflexivity.
Qed.

Arguments parseUnits : simpl never.
Arguments encodeFunctionData : simpl never.
Arguments send_amount : simpl never.

(** ** Case analysis of a run *)

Ltac flow_unfold :=
  unfold main, read_balances, check_token_balance, simulate_transfer,
    request_access_list, send_transaction, getBalance, readContract_symbol,
    readContract_decimals, readContract_balanceOf, simulateContract,
    createAccessList, writeContract, waitForTransactionReceipt, dry_run,
    Promise_all, settle, await, eval, emit, ret, throw, bind, trace, outcome in *.

Ltac flow_step :=
  match goal with
  | |- context [parseUnits TOKEN_SEND_AMOUNT ?d] =>
      rewrite (parseUnits_send_amount d)
  | E : ?x = _ |- context [match ?x with _ => _ end] => rewrite E
  | |- context [match ?x with _ => _ end] =>
      lazymatch x with
      | context [match _ with _ => _ end] => fail
      | _ => destruct x eqn:?
      end
  | |- context [if ?x then _ else _] =>
      lazymatch x with
      | context [if _ then _ else _] => fail
      | _ => destruct x eqn:?
      end
  end.

Ltac flow := flow_unfold; cbn; repeat (flow_step; cbn).

Lemma tx_ops_prefix_main (s : Setup) (n : Node) :
  exists k, tx_ops (trace (main s n)) = firstn k tx_order.
Proof.
  flow.
  all: first [ now exists 0%nat | now exists 1%nat | now exists 2%nat
             | now exists 3%nat | now exists 4%nat ].
Qed.

Lemma run_setup (w : World) (s : Setup) :
  setup w = Return s -> run w = main s (endpoint w (setup_url s)).
Proof. intro E. unfold run. rewrite E. reflexivity. Qed.

Lemma run_setup_throw (w : World) (e : Thrown) :
  setup w = Throw e -> run w = ([], Throw e).
Proof. intro E. unfold run. rewrite E. reflexivity. Qed.

Ltac find_in := solve [simpl; repeat (first [left; reflexivity | right])].

Ltac in_cases H :=
  simpl in H;
  repeat match type of H with
         | _ \/ _ => destruct H as [H|H]
         | False => destruct H
         end;
  try discriminate H.

Lemma main_submissions (s : Setup) (n : Node) :
  (submissions (trace (main s n)) <= 1)%nat
  /\ quiet_after_poll (trace (main s n)) = true.
Proof. flow; (split; [unfold submissions; simpl; lia | reflexivity]). Qed.

Lemma main_access_list_after_simulation (s : Setup) (n : Node) (p : AccessListParams) :
  In (CreateAccessList p) (trace (main s n)) ->
  exists q r, In (SimulateContract q) (trace (main s n)) /\ dry_run n q = Return r.
Proof.
  flow; intro H; in_cases H.
  all: eexists; eexists; (split; [find_in|]).
  all: unfold dry_run; cbn.
  all: repeat match goal with E : ?x = _ |- context [?x] => rewrite E end; reflexivity.
Qed.

Lemma main_submission_after_access_list (s : Setup) (n : Node)
  (r : ContractRequest) (a : Account) :
  In (WriteContract r a) (trace (main s n)) ->
  exists p res, In (CreateAccessList p) (trace (main s n))
                /\ node_createAccessList n p = Ok res.
Proof.
  flow; intro H; in_cases H.
  all: eexists; eexists; (split; [find_in|]); eassumption.
Qed.

Lemma main_poll_after_submission (s : Setup) (n : Node) (p : WaitParams) :
  In (WaitForTransactionReceipt p) (trace (main s n)) ->
  exists r a, In (WriteContract r a) (trace (main s n))
              /\ node_writeContract n r a = Ok (wait_hash p).
Proof.
  flow; intro H; in_cases H.
  all: injection H as <-.
  all: eexists; eexists; (split; [find_in|]); eassumption.
Qed.

(** What the access-list request carries, against the simulated request. *)
Lemma main_access_list_request (s : Setup) (n : Node) (p : AccessListParams) :
  In (CreateAccessList p) (trace (main s n)) ->
  exists q r,
    In (SimulateContract q) (trace (main s n))
    /\ dry_run n q = Return r
    /\ sim_request r = q
    /\ encodeFunctionData (req_functionName q) (req_args q) = Return (al_data p)
    /\ al_to p = req_address q
    /\ al_value p = 0
    /\ al_account p = req_account q
    /\ al_gas p = None
    /\ req_functionName q = transfer
    /\ exists amount, req_args q = [VAddress (req_account q); VUint amount].
Proof.
  flow; intro H; in_cases H.
  all: injection H as <-.
  all: eexists; eexists; (split; [find_in|]).
  all: unfold dry_run; cbn.
  all: repeat match goal with E : ?x = _ |- context [?x] => rewrite E end.
  all: repeat split; eexists; reflexivity.
Qed.

Lemma main_simulation_self_transfer (s : Setup) (n : Node) (q : ContractRequest) :
  In (SimulateContract q) (trace (main s n)) ->
  req_account q = setup_accountAddress s
  /\ req_address q = setup_tokenAddress s
  /\ req_functionName q = transfer
  /\ exists d, req_args q = [VAddress (req_account q); VUint (send_amount d)].
Proof.
  flow; intro H; in_cases H.
  all: injection H as <-.
  all: repeat split; eexists; reflexivity.
Qed.

(** A rejected access-list request ends the run with the rejection. *)
Lemma main_access_list_rejected (s : Setup) (n : Node) (p : AccessListParams)
  (e : ClientError) :
  In (CreateAccessList p) (trace (main s n)) ->
  node_createAccessList n p = Rejected e ->
  outcome (main s n) = Throw (ClientRejected e)
  /\ tx_ops (trace (main s n)) = [OpSimulate; OpAccessList]
  /\ last (trace (main s n)) (Console LogSkipping) = CreateAccessList p.
Proof.
  flow; intro H; in_cases H.
  all: injection H as <-; intro R.
  all: try (rewrite R in *; discriminate).
  all: match goal with E : node_createAccessList _ _ = _ |- _ =>
         rewrite R in E; injection E as -> end.
  all: repeat split.
Qed.

(** What the receipt wait is called with, and how the run ends after it. *)
Lemma main_wait_for_receipt (s : Setup) (n : Node) (p : WaitParams) :
  In (WaitForTransactionReceipt p) (trace (main s n)) ->
  wait_pollingInterval p = None
  /\ wait_timeout p = None
  /\ outcome (main s n)
     = match node_waitForTransactionReceipt n p with
       | Ok r => Return (Sent r)
       | Rejected e => Throw (ClientRejected e)
       end.
Proof.
  flow; intro H; in_cases H.
  all: injection H as <-.
  all: repeat split; congruence.
Qed.

(** ** Configuration *)

Lemma chain_default_url (w : World) :
  exists u, hd_error (rpcUrls_default_http (chain w)) = Some u
            /\ truthy (Some u) = true.
Proof.
  unfold chain. destruct (chainName w); eexists; split; reflexivity.
Qed.

Lemma truthy_some (o : option string) :
  truthy o = true -> exists u, o = Some u /\ truthy (Some u) = true.
Proof. destruct o as [u|]; [eauto | discriminate]. Qed.

Lemma http_resolves (w : World) :
  exists u, http (rpcUrl w) (chain w) = Return u
    /\ (truthy (rpcUrl w) = true -> rpcUrl w = Some u)
    /\ (truthy (rpcUrl w) = false ->
        hd_error (rpcUrls_default_http (chain w)) = Some u).
Proof.
  destruct (chain_default_url w) as (d & Hd & Td).
  unfold http, or_else. destruct (truthy (rpcUrl w)) eqn:T.
  - destruct (truthy_some _ T) as (u & -> & Tu). exists u.
    rewrite Tu. repeat split; congruence.
  - exists d. rewrite Hd, Td. repeat split; congruence.
Qed.

Lemma setup_account_mode (w : World) (s : Setup) :
  setup w = Return s ->
  setup_isUsingFallback s = isUsingFallback w
  /\ (isUsingFallback w = true ->
      setup_account s = None /\ setup_accountAddress s = FALLBACK_ADDRESS)
  /\ (isUsingFallback w = false ->
      exists a, setup_account s = Some a
                /\ setup_accountAddress s = account_address a).
Proof.
  unfold setup, account, isUsingFallback.
  destruct (selected_chain w); [|discriminate].
  destruct (MNEMONIC w) as [m|]; [destruct (truthy (Some m));
    [destruct (mnemonicToAccount w m) as [a|]; [|discriminate]|]|];
    (destruct (http (rpcUrl w) (chain w)); [|discriminate]);
    intros [= <-]; cbn; repeat split; try discriminate; eauto.
Qed.

Lemma setup_url_resolved (w : World) (s : Setup) (u : string) :
  setup w = Return s -> http (rpcUrl w) (chain w) = Return u -> setup_url s = u.
Proof.
  unfold setup. intros E H. rewrite H in E.
  destruct (selected_chain w); [|discriminate].
  destruct (account w); [injection E as <-; reflexivity | discriminate].
Qed.

Lemma tokenAddress_defined (w : World) :
  TOKEN_ADDRESS_BY_CHAIN (chain_id (chain w)) = Some (tokenAddress w).
Proof.
  unfold tokenAddress, chain. destruct (chainName w); reflexivity.
Qed.

(** ** Read-only mode and the balance gate *)

Lemma main_read_only (s : Setup) (n : Node) :
  setup_isUsingFallback s = true ->
  Forall (read_only_event (setup_accountAddress s)) (trace (main s n))
  /\ (forall c, outcome (main s n) = Return c ->
      c = CompletedReadOnly
      /\ tx_ops (trace (main s n)) = [OpSimulate; OpAccessList]).
Proof.
  intro F. flow_unfold. rewrite F. cbn. repeat (flow_step; cbn).
  all: split;
    [ repeat (apply Forall_cons;
              [split; [reflexivity | cbn; intros ? E; congruence]|]);
      apply Forall_nil
    | intros c E; try discriminate E; injection E as <-; split; reflexivity ].
Qed.

Lemma send_transaction_unauthorized (n : Node) (request : ContractRequest) :
  send_transaction n None request = ([], Throw AccountRequired).
Proof. reflexivity. Qed.

Lemma main_zero_balance_gate (s : Setup) (n : Node)
  (nb : Z) (sym : string) (dec : nat) (bal : Z) :
  node_getBalance n (setup_accountAddress s) = Ok nb ->
  node_symbol n (setup_tokenAddress s) = Ok sym ->
  node_decimals n (setup_tokenAddress s) = Ok dec ->
  node_balanceOf n (setup_tokenAddress s) (setup_accountAddress s) = Ok bal ->
  bal <= 0 ->
  (setup_isUsingFallback s = false ->
   outcome (main s n) = Throw (PleaseAdd sym)
   /\ tx_ops (trace (main s n)) = [])
  /\ (setup_isUsingFallback s = true ->
      exists q, In (SimulateContract q) (trace (main s n))
        /\ forall r, dry_run n q = Return r ->
                     exists p, In (CreateAccessList p) (trace (main s n))).
Proof.
  intros H0 H1 H2 H3 Hb. apply Z.leb_le in Hb.
  split; intro F; flow_unfold; rewrite F, H0, H1, H2, H3; cbn; rewrite Hb; cbn.
  - split; reflexivity.
  - repeat (flow_step; cbn).
    all: eexists; (split; [find_in|]).
    all: unfold dry_run; cbn.
    all: repeat match goal with E : ?x = _ |- context [?x] => rewrite E end.
    all: intros r E; try discriminate E.
    all: eexists; find_in.
Qed.

(** ** The four reads in another order *)

Section ReadsInOrderFacts.

Variable s : Setup.
Variable n : Node.

Lemma issue_read_fulfilled (q : ReadQuery) (acc : Reads) :
  read_rejection s n q = None ->
  exists r, outcome (issue_read s n q acc) = Return r
    /\ read_value q r = read_answer s n q
    /\ forall q', q' <> q -> read_value q' r = read_value q' acc.
Proof.
  destruct q; unfold read_rejection, read_answer, issue_read; flow_unfold; cbn;
    match goal with |- context [match ?x with _ => _ end] => destruct x end;
    intro H; try discriminate H; cbn; eexists; (split; [reflexivity|]);
    (split; [reflexivity|]); intros [] Hq; try reflexivity; congruence.
Qed.

Lemma issue_read_rejected (q : ReadQuery) (acc : Reads) (e : ClientError) :
  read_rejection s n q = Some e ->
  outcome (issue_read s n q acc) = Throw (ClientRejected e).
Proof.
  destruct q; unfold read_rejection, issue_read; flow_unfold; cbn;
    match goal with |- context [match ?x with _ => _ end] => destruct x end;
    intro H; try discriminate H; injection H as ->; reflexivity.
Qed.

Lemma outcome_bind {A B} (m : M A) (k : A -> M B) :
  outcome (bind m k)
  = match outcome m with
    | Return a => outcome (k a)
    | Throw e => Throw e
    end.
Proof.
  unfold outcome, bind. destruct m as [t [a|e]]; cbn; [|reflexivity].
  destruct (k a); reflexivity.
Qed.

(** When every read is fulfilled, reads issued in any order end with the
    endpoint's answer for each read issued and leave the others as they
    were. *)
Lemma issue_reads_fulfilled (order : list ReadQuery) :
  (forall q, read_rejection s n q = None) ->
  forall acc, exists r,
    outcome (issue_reads s n order acc) = Return r
    /\ forall q, read_value q r
                 = if in_dec ReadQuery_eq_dec q order
                   then read_answer s n q else read_value q acc.
Proof.
  intro Hall. induction order as [|q0 rest IH]; intro acc.
  - exists acc. split; [reflexivity|]. intro q. reflexivity.
  - destruct (issue_read_fulfilled q0 acc (Hall q0)) as (r0 & E0 & V0 & O0).
    destruct (IH r0) as (r & E & V).
    exists r. split.
    + cbn [issue_reads]. rewrite outcome_bind, E0. exact E.
    + intro q. rewrite V.
      destruct (in_dec _ q rest) as [i|ni];
        destruct (in_dec _ q (q0 :: rest)) as [j|nj]; try reflexivity.
      * exfalso. apply nj. right. exact i.
      * destruct j as [<-|j]; [exact V0 | contradiction].
      * apply O0. intros ->. apply nj. left. reflexivity.
Qed.

(** A rejected read makes every order that issues it fail. *)
Lemma issue_reads_rejected (order : list ReadQuery) (q : ReadQuery) (e : ClientError) :
  read_rejection s n q = Some e -> In q order ->
  forall acc, exists e', outcome (issue_reads s n order acc) = Throw e'.
Proof.
  intros R. induction order as [|q0 rest IH]; intros I acc; [destruct I|].
  cbn [issue_reads]. rewrite outcome_bind.
  destruct (read_rejection s n q0) as [e0|] eqn:R0.
  - rewrite (issue_read_rejected q0 acc e0 R0). eauto.
  - destruct (issue_read_fulfilled q0 acc R0) as (r0 & E0 & _).
    rewrite E0. destruct I as [->|I]; [congruence|]. apply IH. exact I.
Qed.

End ReadsInOrderFacts.


(** Two records of reads with the same value for every read are equal. *)
Lemma reads_extensional (r r' : Reads) :
  (forall q, read_value q r = read_value q r') -> r = r'.
Proof.
  intro H. destruct r as [a b c d], r' as [a' b' c' d'].
  pose proof (H NativeBalance) as H0. pose proof (H TokenSymbol) as H1.
  pose proof (H TokenDecimals) as H2. pose proof (H TokenBalance) as H3.
  cbn in H0, H1, H2, H3.
  destruct a, a', b, b', c, c', d, d'; cbn in *; congruence.
Qed.

Lemma script_order_complete (q : ReadQuery) : In q script_order.
Proof. destruct q; cbn; tauto. Qed.

(** When all four reads are fulfilled, the script's own reads end with the
    endpoint's answers, whenever these arrive. *)
Lemma read_balances_fulfilled (s : Setup) (n : Node) :
  (forall q, read_rejection s n q = None) ->
  exists nb sym dec bal,
    outcome (read_balances s n) = Return (nb, sym, dec, bal)
    /\ read_answer s n NativeBalance = Some (IntValue nb)
    /\ read_answer s n TokenSymbol = Some (TextValue sym)
    /\ read_answer s n TokenDecimals = Some (NatValue dec)
    /\ read_answer s n TokenBalance = Some (IntValue bal).
Proof.
  intro H.
  pose proof (H NativeBalance) as H0. pose proof (H TokenSymbol) as H1.
  pose proof (H TokenDecimals) as H2. pose proof (H TokenBalance) as H3.
  unfold read_rejection in H0, H1, H2, H3. unfold read_answer.
  flow_unfold. cbn.
  destruct (node_getBalance n (setup_accountAddress s)); [|discriminate].
  destruct (node_symbol n (setup_tokenAddress s)); [|discriminate].
  destruct (node_decimals n (setup_tokenAddress s)); [|discriminate].
  destruct (node_balanceOf n (setup_tokenAddress s) (setup_accountAddress s));
    [|discriminate].
  destruct (setup_isUsingFallback s); cbn; do 4 eexists; repeat split.
Qed.

Lemma read_balances_rejected (s : Setup) (n : Node) (q : ReadQuery) (e : ClientError) :
  read_rejection s n q = Some e ->
  exists e', outcome (read_balances s n) = Throw e'.
Proof.
  destruct q; unfold read_rejection; flow_unfold; cbn; intro H.
  all: destruct (setup_isUsingFallback s); cbn.
  all: destruct (node_getBalance n (setup_accountAddress s)); cbn;
    try discriminate; eauto.
  all: destruct (node_symbol n (setup_tokenAddress s)),
         (node_decimals n (setup_tokenAddress s)),
         (node_balanceOf n (setup_tokenAddress s) (setup_accountAddress s));
    cbn; try discriminate; eauto.
Qed.

(** ** Runs of the sample worlds *)

Example run_read_only :
  outcome (run world_read_only) = Return CompletedReadOnly
  /\ tx_ops (trace (run world_read_only)) = [OpSimulate; OpAccessList].
Proof. split; reflexivity. Qed.

Example run_signing :
  outcome (run world_signing) = Return (Sent (sample_receipt 0xabc))
  /\ tx_ops (trace (run world_signing)) = tx_order.
Proof. split; reflexivity. Qed.

(** The script sends its access-list request without a gas limit, and
    QuickNode on Celo answers it with the gas-estimation error. *)
Example run_quicknode :
  outcome (run world_quicknode)
  = Throw (ClientRejected (GasEstimation 99063787553000000 30000600000000000000))
  /\ tx_ops (trace (run world_quicknode)) = [OpSimulate; OpAccessList].
Proof. split; reflexivity. Qed.

(** ** Generalities on traces *)

Lemma read_only_no_submission (a : Address) (t : list Event) :
  Forall (read_only_event a) t -> submissions t = 0%nat.
Proof.
  unfold submissions. induction 1 as [|ev t [R _] _ IH]; [reflexivity|].
  cbn [filter]. destruct ev; cbn in *; try exact IH; discriminate.
Qed.

Lemma main_first_line (s : Setup) (n : Node) :
  exists t, trace (main s n) = Console (LogRpcUrl (setup_url s)) :: t.
Proof. flow; eexists; reflexivity. Qed.


(** * The claims *)

(** ** C1: a failed access-list request *)

(** C1, as the code has it.  When the access-list request of a run is
    rejected, the run ends there with the rejection: the cause is the value
    the run throws, the request is the last event of the trace, and the only
    transaction steps taken are the simulation and the request itself.
    Nothing is submitted and no receipt is awaited. *)
Theorem access_list_failure_ends_run
  (w : World) (s : Setup) (p : AccessListParams) (e : ClientError) :
  setup w = Return s ->
  In (CreateAccessList p) (trace (run w)) ->
  node_createAccessList (endpoint w (setup_url s)) p = Rejected e ->
  outcome (run w) = Throw (ClientRejected e)
  /\ tx_ops (trace (run w)) = [OpSimulate; OpAccessList]
  /\ last (trace (run w)) (Console LogSkipping) = CreateAccessList p.
Proof.
  intro E. rewrite (run_setup w s E). apply main_access_list_rejected.
Qed.

Lemma access_list_failure_ends_run_witness :
  setup world_forno = Return setup_forno
  /\ In (CreateAccessList (access_list_request setup_forno 10000))
        (trace (run world_forno))
  /\ node_createAccessList (endpoint world_forno (setup_url setup_forno))
       (access_list_request setup_forno 10000)
     = Rejected MethodNotWhitelisted
  /\ outcome (run world_forno) = Throw (ClientRejected MethodNotWhitelisted)
  /\ tx_ops (trace (run world_forno)) = [OpSimulate; OpAccessList]
  /\ last (trace (run world_forno)) (Console LogSkipping)
     = CreateAccessList (access_list_request setup_forno 10000).
Proof.
  assert (H1 : setup world_forno = Return setup_forno) by reflexivity.
  assert (H2 : In (CreateAccessList (access_list_request setup_forno 10000))
                  (trace (run world_forno)))
    by (vm_compute; repeat (first [left; reflexivity | right])).
  assert (H3 : node_createAccessList (endpoint world_forno (setup_url setup_forno))
                 (access_list_request setup_forno 10000)
               = Rejected MethodNotWhitelisted) by reflexivity.
  split; [exact H1|]. split; [exact H2|]. split; [exact H3|].
  exact (access_list_failure_ends_run world_forno setup_forno
           (access_list_request setup_forno 10000) MethodNotWhitelisted H1 H2 H3).
Defined.

(** C1 as stated fails.  With a mnemonic configured and an endpoint that
    answers the access-list request with "rpc method is not whitelisted",
    the run does not continue without an access list: it throws that
    rejection and submits nothing, although the same run submits once when
    the access list is granted. *)
Lemma access_list_failure_not_recovered :
  In (CreateAccessList (access_list_request setup_forno 10000))
     (trace (run world_forno))
  /\ outcome (run world_forno) = Throw (ClientRejected MethodNotWhitelisted)
  /\ (forall c, outcome (run world_forno) <> Return c)
  /\ submissions (trace (run world_forno)) = 0%nat
  /\ submissions (trace (run world_signing)) = 1%nat
  /\ outcome (run world_signing) = Return (Sent (sample_receipt 0xabc)).
Proof.
  split; [vm_compute; repeat (first [left; reflexivity | right])|].
  split; [reflexivity|]. split; [intros c H; discriminate H|].
  repeat split.
Qed.

(** ** C2: the explicit gas limit *)




(** ** C3: the RPC URL *)

(** C3, as the code has it.  The setup never fails for want of a URL.
    For the chain selected, resolving the transport succeeds: a non-empty
    URL, from the command line or else from the chain's environment
    variable, is used as given, whatever its shape; when neither gives a
    non-empty URL the default public endpoint of the chain is used, that of
    Base or that of Celo.  The run then starts by printing the resolved
    URL. *)
Theorem missing_url_falls_back_to_chain_default (w : World) :
  setup w <> Throw UrlRequired
  /\ forall c, selected_chain w = Some c ->
       (c = base \/ c = celo)
       /\ exists u,
            http (rpcUrl w) c = Return u
            /\ (truthy (rpcUrl w) = true -> rpcUrl w = Some u)
            /\ (truthy (rpcUrl w) = false ->
                hd_error (rpcUrls_default_http c) = Some u)
            /\ (forall s, setup w = Return s ->
                setup_url s = u
                /\ exists t, trace (run w) = Console (LogRpcUrl u) :: t).
Proof.
  destruct (http_resolves w) as (u & H & T & F).
  split.
  - unfold setup, account. rewrite H.
    destruct (selected_chain w); [|discriminate].
    destruct (MNEMONIC w) as [m|]; [destruct (truthy (Some m));
      [destruct (mnemonicToAccount w m)|]|]; discriminate.
  - intros c Sc.
    assert (Ec : c = chain w).
    { revert Sc. unfold selected_chain, chain, chainName.
      destruct (argv_chain_value w); intros [= <-]; reflexivity. }
    subst c. split.
    + unfold chain. destruct (chainName w); [left | right]; reflexivity.
    + exists u. repeat split; try assumption.
      * apply (setup_url_resolved w s u); assumption.
      * rewrite (run_setup w s) by assumption.
        rewrite <- (setup_url_resolved w s u) by assumption.
        apply main_first_line.
Qed.

Lemma missing_url_falls_back_to_chain_default_witness :
  selected_chain world_read_only = Some base
  /\ truthy (rpcUrl world_read_only) = false
  /\ setup world_read_only = Return setup_read_only
  /\ http (rpcUrl world_read_only) base = Return "https://mainnet.base.org"
  /\ setup_url setup_read_only = "https://mainnet.base.org".
Proof.
  destruct (missing_url_falls_back_to_chain_default world_read_only) as (_ & C).
  destruct (C base eq_refl) as (_ & u & H & _ & D & S).
  assert (E : u = "https://mainnet.base.org")
    by (specialize (D eq_refl); cbn in D; congruence).
  subst u. split; [reflexivity|]. split; [reflexivity|].
  split; [reflexivity|]. split; [exact H | reflexivity].
Defined.

(** C3 as stated fails.  Started with no [--rpc-url] and no environment
    variable, the script does not stop with a configuration error: it
    resolves the default endpoint of Base and goes on to query it.  An
    empty URL does the same, and a URL that is no URL at all is accepted as
    it is. *)
Lemma no_url_is_not_a_configuration_error :
  rpcUrl world_read_only = None
  /\ setup world_read_only = Return setup_read_only
  /\ setup_url setup_read_only = "https://mainnet.base.org"
  /\ In (GetBalance FALLBACK_ADDRESS) (trace (run world_read_only))
  /\ outcome (run world_read_only) = Return CompletedReadOnly
  /\ setup (sample_world None None (Some "") (node_alchemy 6 1000000))
     = Return setup_read_only
  /\ setup (sample_world None None (Some "not a url") (node_alchemy 6 1000000))
     = Return (sample_setup chain_base None "not a url").
Proof.
  repeat split. vm_compute. repeat (first [left; reflexivity | right]).
Qed.

(** ** C4: read-only mode *)

(** C4.  Without a mnemonic, every event of a run is a console line, a read
    or a dry run, and the only account named is the fallback address, as an
    address that cannot sign.  Nothing is submitted; a run that completes
    has completed in read-only mode, right after the simulation and the
    access-list request.  No signing account exists in this mode, and
    sending without one throws before any client action. *)
Theorem read_only_mode_never_submits (w : World) :
  isUsingFallback w = true ->
  Forall (read_only_event FALLBACK_ADDRESS) (trace (run w))
  /\ submissions (trace (run w)) = 0%nat
  /\ (forall c, outcome (run w) = Return c ->
      c = CompletedReadOnly
      /\ tx_ops (trace (run w)) = [OpSimulate; OpAccessList])
  /\ (forall s, setup w = Return s -> setup_account s = None)
  /\ (forall n request,
        send_transaction n None request = ([], Throw AccountRequired)).
Proof.
  intro F.
  assert (R : Forall (read_only_event FALLBACK_ADDRESS) (trace (run w))
              /\ (forall c, outcome (run w) = Return c ->
                  c = CompletedReadOnly
                  /\ tx_ops (trace (run w)) = [OpSimulate; OpAccessList])).
  { destruct (setup w) as [s|e] eqn:E.
    - destruct (setup_account_mode w s E) as (M & A & _).
      destruct (A F) as (_ & Addr).
      rewrite (run_setup w s E), <- Addr.
      apply main_read_only. congruence.
    - rewrite (run_setup_throw w e E). split; [constructor|].
      intros c H. discriminate H. }
  destruct R as (R1 & R2).
  split; [exact R1|]. split; [exact (read_only_no_submission _ _ R1)|].
  split; [exact R2|]. split.
  - intros s E. destruct (setup_account_mode w s E) as (_ & A & _).
    apply (A F).
  - intros. apply send_transaction_unauthorized.
Qed.

Lemma read_only_mode_never_submits_witness :
  isUsingFallback world_read_only = true
  /\ submissions (trace (run world_read_only)) = 0%nat
  /\ outcome (run world_read_only) = Return CompletedReadOnly
  /\ tx_ops (trace (run world_read_only)) = [OpSimulate; OpAccessList].
Proof.
  destruct (read_only_mode_never_submits world_read_only eq_refl)
    as (_ & S & C & _).
  split; [reflexivity|]. split; [exact S|]. split; [reflexivity|].
  apply (C CompletedReadOnly). reflexivity.
Defined.

(** ** C5: the order of the transaction steps *)

(** C5.  The transaction steps of a run are an initial part of: simulate,
    request the access list, submit, wait for the receipt.  Each step is
    taken only after the one before it was fulfilled; at most one
    submission is made; and nothing but console lines follows the receipt
    wait, whose answer - a receipt of either status, or a rejection such as
    a timeout - ends the run. *)
Theorem transaction_steps_sequential (w : World) :
  (exists k, tx_ops (trace (run w)) = firstn k tx_order)
  /\ (submissions (trace (run w)) <= 1)%nat
  /\ quiet_after_poll (trace (run w)) = true
  /\ forall s, setup w = Return s ->
       (forall p, In (CreateAccessList p) (trace (run w)) ->
          exists q r, In (SimulateContract q) (trace (run w))
                      /\ dry_run (endpoint w (setup_url s)) q = Return r)
       /\ (forall r a, In (WriteContract r a) (trace (run w)) ->
             exists p res, In (CreateAccessList p) (trace (run w))
               /\ node_createAccessList (endpoint w (setup_url s)) p = Ok res)
       /\ (forall p, In (WaitForTransactionReceipt p) (trace (run w)) ->
             (exists r a, In (WriteContract r a) (trace (run w))
                /\ node_writeContract (endpoint w (setup_url s)) r a
                   = Ok (wait_hash p))
             /\ outcome (run w)
                = match node_waitForTransactionReceipt
                          (endpoint w (setup_url s)) p with
                  | Ok r => Return (Sent r)
                  | Rejected e => Throw (ClientRejected e)
                  end).
Proof.
  destruct (setup w) as [s|e] eqn:E.
  - rewrite (run_setup w s E).
    split; [apply tx_ops_prefix_main|].
    split; [apply main_submissions|]. split; [apply main_submissions|].
    intros s' [= <-]. split; [|split].
    + apply main_access_list_after_simulation.
    + apply main_submission_after_access_list.
    + intros p H. split.
      * apply main_poll_after_submission. exact H.
      * apply main_wait_for_receipt. exact H.
  - rewrite (run_setup_throw w e E).
    split; [exists 0%nat; reflexivity|]. split; [cbn; lia|].
    split; [reflexivity|]. intros s' H. discriminate H.
Qed.

Lemma transaction_steps_sequential_witness :
  setup world_signing = Return setup_signing
  /\ In (WaitForTransactionReceipt sample_wait) (trace (run world_signing))
  /\ tx_ops (trace (run world_signing)) = tx_order
  /\ submissions (trace (run world_signing)) = 1%nat
  /\ outcome (run world_signing) = Return (Sent (sample_receipt 0xabc)).
Proof.
  assert (H : In (WaitForTransactionReceipt sample_wait) (trace (run world_signing)))
    by (vm_compute; repeat (first [left; reflexivity | right])).
  destruct (transaction_steps_sequential world_signing) as (_ & _ & _ & S).
  destruct (S setup_signing eq_refl) as (_ & _ & P).
  destruct (P sample_wait H) as (_ & O).
  split; [reflexivity|]. split; [exact H|]. split; [reflexivity|].
  split; [reflexivity|]. exact O.
Defined.

(** ** C6: the simulated transfer *)

(** C6, as the code has it.  For a token with at least two decimals the
    script simulates [transfer(account, amount)] with [amount] equal to 0.01
    scaled by ten to the token's decimals (10000 for six decimals).  When
    that amount is a [uint256], which it is up to 79 decimals, the call is
    encoded as the selector followed by the two arguments and dry-run: a
    rejected dry run ends the run with the rejection, an accepted one
    returns the request with these arguments. *)
Theorem transfer_amount_scaled
  (s : Setup) (n : Node) (tokenSymbol : string) (d : nat) :
  (2 <= d)%nat ->
  parseUnits TOKEN_SEND_AMOUNT d = Return (send_amount d)
  /\ 100 * send_amount d = 10 ^ Z.of_nat d
  /\ send_amount 6 = 10000
  /\ In (SimulateContract (transfer_request s (send_amount d)))
        (trace (simulate_transfer s n tokenSymbol d))
  /\ ((d <= 79)%nat ->
      encodeFunctionData transfer (req_args (transfer_request s (send_amount d)))
      = Return (transfer_data (setup_accountAddress s) (send_amount d))
      /\ outcome (simulate_transfer s n tokenSymbol d)
         = match node_call n
                   {| call_from := setup_accountAddress s;
                      call_to := setup_tokenAddress s;
                      call_data := transfer_data (setup_accountAddress s)
                                     (send_amount d) |} with
           | Ok _ => Return (transfer_request s (send_amount d))
           | Rejected e => Throw (ClientRejected e)
           end).
Proof.
  intro H2. split; [apply parseUnits_send_amount|].
  split; [apply send_amount_scaled; exact H2|]. split; [reflexivity|].
  split.
  - unfold simulate_transfer, transfer_request. flow_unfold.
    rewrite parseUnits_send_amount. cbn.
    destruct (setup_isUsingFallback s); cbn;
      destruct (encodeFunctionData _ _); cbn;
      try destruct (node_call n _); cbn; tauto.
  - intro H79.
    pose proof (encode_transfer (setup_accountAddress s) (send_amount d)
                  (send_amount_range d H79)) as En.
    split; [exact En|].
    unfold simulate_transfer, transfer_request. flow_unfold.
    rewrite parseUnits_send_amount. cbn. rewrite En.
    destruct (node_call n _); destruct (setup_isUsingFallback s); reflexivity.
Qed.

Lemma transfer_amount_scaled_witness :
  (2 <= 6)%nat
  /\ (6 <= 79)%nat
  /\ parseUnits TOKEN_SEND_AMOUNT 6 = Return 10000
  /\ to_hex (transfer_data FALLBACK_ADDRESS 10000)
     = "0xa9059cbb000000000000000000000000e30e59040385cfa09e5c61241c20f0673f314c980000000000000000000000000000000000000000000000000000000000002710"
  /\ outcome (simulate_transfer setup_read_only (node_alchemy 6 1000000) "USDC" 6)
     = Return (transfer_request setup_read_only 10000).
Proof.
  assert (H2 : (2 <= 6)%nat) by lia.
  assert (H79 : (6 <= 79)%nat) by lia.
  destruct (transfer_amount_scaled setup_read_only (node_alchemy 6 1000000)
              "USDC" 6 H2) as (P & _ & _ & _ & D).
  destruct (D H79) as (_ & O).
  split; [exact H2|]. split; [exact H79|]. split; [exact P|].
  split; [reflexivity|]. exact O.
Defined.

(** C6 as stated fails for a token with fewer than two decimals.  With one
    decimal the script simulates a transfer of 0, and no integer is 0.01
    scaled by ten. *)
Lemma transfer_amount_one_decimal :
  parseUnits TOKEN_SEND_AMOUNT 1 = Return 0
  /\ In (SimulateContract (transfer_request setup_read_only 0))
        (trace (run world_one_decimal))
  /\ 100 * 0 <> 10 ^ Z.of_nat 1
  /\ forall amount : Z, 100 * amount <> 10 ^ Z.of_nat 1.
Proof.
  split; [reflexivity|].
  split; [vm_compute; repeat (first [left; reflexivity | right])|].
  split; [discriminate|]. intro amount. change (10 ^ Z.of_nat 1) with 10. lia.
Qed.

(** ** C7: waiting for the receipt *)




(** ** C8: the order of the reads *)

(** Reads issued one after the other end with the rejection of the first
    read of the order that the endpoint rejects. *)
Lemma issue_reads_first_rejected (s : Setup) (n : Node) (order : list ReadQuery)
  (q : ReadQuery) (e : ClientError) :
  read_rejection s n q = Some e -> In q order ->
  forall acc, exists before q1 after e1,
    order = before ++ q1 :: after
    /\ (forall q', In q' before -> read_rejection s n q' = None)
    /\ read_rejection s n q1 = Some e1
    /\ outcome (issue_reads s n order acc) = Throw (ClientRejected e1).
Proof.
  intro R. induction order as [|q0 rest IH]; intros I acc; [destruct I|].
  cbn [issue_reads]. rewrite outcome_bind.
  destruct (read_rejection s n q0) as [e0|] eqn:R0.
  - exists [], q0, rest, e0. rewrite (issue_read_rejected s n q0 acc e0 R0).
    repeat split; try assumption. intros q' [].
  - destruct (issue_read_fulfilled s n q0 acc R0) as (r0 & E0 & _).
    rewrite E0. destruct I as [->|I]; [congruence|].
    destruct (IH I r0) as (before & q1 & after & e1 & O & B & R1 & T).
    exists (q0 :: before), q1, after, e1. subst rest.
    repeat split; try assumption.
    intros q' [<-|Iq]; [exact R0 | apply B; exact Iq].
Qed.

(** The script's own reads end with the rejection of the native balance
    when that read is rejected, and otherwise with the rejection of a token
    read that no other rejected token read precedes in arrival. *)
Lemma read_balances_first_arrival (s : Setup) (n : Node) (q : ReadQuery)
  (e : ClientError) :
  read_rejection s n q = Some e ->
  exists q2 e2,
    read_rejection s n q2 = Some e2
    /\ outcome (read_balances s n) = Throw (ClientRejected e2)
    /\ (q2 = NativeBalance
        \/ (q2 <> NativeBalance
            /\ read_rejection s n NativeBalance = None
            /\ forall q' e', q' <> NativeBalance ->
                             read_rejection s n q' = Some e' ->
                             (arrival n q2 <= arrival n q')%nat)).
Proof.
  intro R.
  assert (Some_rejected :
            read_rejection s n NativeBalance <> None
            \/ read_rejection s n TokenSymbol <> None
            \/ read_rejection s n TokenDecimals <> None
            \/ read_rejection s n TokenBalance <> None).
  { destruct q; rewrite R; [left | right; left | right; right; left
                           | right; right; right]; discriminate. }
  clear R. revert Some_rejected.
  unfold read_rejection at 1 2 3 4.
  flow_unfold. cbn.
  destruct (node_getBalance n (setup_accountAddress s)) as [nb|eg] eqn:Eg;
    destruct (node_symbol n (setup_tokenAddress s)) as [sy|ey] eqn:Ey;
    destruct (node_decimals n (setup_tokenAddress s)) as [de|ed] eqn:Ed;
    destruct (node_balanceOf n (setup_tokenAddress s) (setup_accountAddress s))
      as [ba|eb] eqn:Eb;
    destruct (setup_isUsingFallback s); cbn;
    intro Some_rejected;
    try (exfalso; clear - Some_rejected; intuition congruence);
    clear Some_rejected.
  all: repeat match goal with
              | |- context [(?a <=? ?b)%nat] => destruct (Nat.leb_spec a b)
              end.
  all: match goal with
       | |- context [Throw (ClientRejected ?x)] =>
           first
             [ exists NativeBalance, x; unfold read_rejection; rewrite Eg;
               split; [reflexivity|]; split; [reflexivity|]; left; reflexivity
             | exists TokenSymbol, x; unfold read_rejection; rewrite ?Eg, ?Ey;
               split; [reflexivity|]; split; [reflexivity|]; right;
               split; [discriminate|]; split; [reflexivity|];
               intros [] e' Hq' R'; rewrite ?Ey, ?Ed, ?Eb in R';
               try discriminate R'; try congruence; lia
             | exists TokenDecimals, x; unfold read_rejection; rewrite ?Eg, ?Ed;
               split; [reflexivity|]; split; [reflexivity|]; right;
               split; [discriminate|]; split; [reflexivity|];
               intros [] e' Hq' R'; rewrite ?Ey, ?Ed, ?Eb in R';
               try discriminate R'; try congruence; lia
             | exists TokenBalance, x; unfold read_rejection; rewrite ?Eg, ?Eb;
               split; [reflexivity|]; split; [reflexivity|]; right;
               split; [discriminate|]; split; [reflexivity|];
               intros [] e' Hq' R'; rewrite ?Ey, ?Ed, ?Eb in R';
               try discriminate R'; try congruence; lia ]
       end.
Qed.

(** C8, as the code has it.  Take the four reads in any order, each awaited
    before the next.  When the endpoint fulfils all four, every order ends
    with the same results, which are the results of the script's own reads,
    whenever the answers arrive.  When the endpoint rejects one of them,
    every order fails, with the rejection of the first read of that order
    that is rejected; and the script's own reads fail with the rejection of
    the native balance or, that one answered, with the rejection of a token
    read that arrives no later than any other rejected one. *)
Theorem reads_order_independent_when_fulfilled
  (s : Setup) (n : Node) (order : list ReadQuery) :
  Permutation order script_order ->
  ((forall q, read_rejection s n q = None) ->
   outcome (issue_reads s n order no_reads)
   = outcome (issue_reads s n script_order no_reads)
   /\ exists nb sym dec bal,
        outcome (read_balances s n) = Return (nb, sym, dec, bal)
        /\ outcome (issue_reads s n order no_reads)
           = Return {| read_native := Some nb; read_symbol := Some sym;
                       read_decimals := Some dec; read_balance := Some bal |})
  /\ (forall q e, read_rejection s n q = Some e ->
      (exists before q1 after e1,
         order = before ++ q1 :: after
         /\ (forall q', In q' before -> read_rejection s n q' = None)
         /\ read_rejection s n q1 = Some e1
         /\ outcome (issue_reads s n order no_reads) = Throw (ClientRejected e1))
      /\ (exists q2 e2,
            read_rejection s n q2 = Some e2
            /\ outcome (read_balances s n) = Throw (ClientRejected e2)
            /\ (q2 = NativeBalance
                \/ (q2 <> NativeBalance
                    /\ read_rejection s n NativeBalance = None
                    /\ forall q' e', q' <> NativeBalance ->
                                     read_rejection s n q' = Some e' ->
                                     (arrival n q2 <= arrival n q')%nat)))).
Proof.
  intro P. split.
  - intro Hall.
    assert (Full : forall o, (forall q, In q o) ->
              forall r, outcome (issue_reads s n o no_reads) = Return r ->
              forall q, read_value q r = read_answer s n q).
    { intros o Ho r E q.
      destruct (issue_reads_fulfilled s n o Hall no_reads) as (r' & E' & V).
      rewrite E' in E. injection E as <-. rewrite V.
      destruct (in_dec ReadQuery_eq_dec q o) as [_|ni];
        [reflexivity | destruct (ni (Ho q))]. }
    assert (Ho : forall q, In q order).
    { intro q. apply (Permutation_in q (Permutation_sym P)).
      apply script_order_complete. }
    destruct (issue_reads_fulfilled s n order Hall no_reads) as (r1 & E1 & _).
    destruct (issue_reads_fulfilled s n script_order Hall no_reads)
      as (r2 & E2 & _).
    pose proof (Full order Ho r1 E1) as V1.
    pose proof (Full script_order script_order_complete r2 E2) as V2.
    destruct (read_balances_fulfilled s n Hall)
      as (nb & sym & dec & bal & B & A0 & A1 & A2 & A3).
    split.
    + rewrite E1, E2. f_equal. apply reads_extensional.
      intro q. rewrite V1, V2. reflexivity.
    + exists nb, sym, dec, bal. split; [exact B|].
      rewrite E1. f_equal. apply reads_extensional.
      intro q. rewrite V1. destruct q; cbn; assumption.
  - intros q e R. split.
    + apply (issue_reads_first_rejected s n order q e R).
      apply (Permutation_in q (Permutation_sym P)). apply script_order_complete.
    + apply (read_balances_first_arrival s n q e R).
Qed.

Lemma reads_order_independent_when_fulfilled_witness :
  Permutation [TokenSymbol; NativeBalance; TokenDecimals; TokenBalance] script_order
  /\ (forall q, read_rejection setup_read_only (node_alchemy 6 1000000) q = None)
  /\ outcome (issue_reads setup_read_only (node_alchemy 6 1000000)
                [TokenSymbol; NativeBalance; TokenDecimals; TokenBalance] no_reads)
     = outcome (issue_reads setup_read_only (node_alchemy 6 1000000)
                  script_order no_reads)
  /\ read_rejection setup_read_only (node_two_rejections 0 0) NativeBalance
     = Some HttpRequestFailed
  /\ exists q1 e1,
       read_rejection setup_read_only (node_two_rejections 0 0) q1 = Some e1
       /\ outcome (issue_reads setup_read_only (node_two_rejections 0 0)
                     [TokenSymbol; NativeBalance; TokenDecimals; TokenBalance]
                     no_reads)
          = Throw (ClientRejected e1).
Proof.
  assert (P : Permutation [TokenSymbol; NativeBalance; TokenDecimals; TokenBalance]
                script_order) by apply perm_swap.
  assert (A : forall q, read_rejection setup_read_only (node_alchemy 6 1000000) q
                        = None) by (intros []; reflexivity).
  destruct (reads_order_independent_when_fulfilled setup_read_only
              (node_alchemy 6 1000000) _ P) as (F & _).
  destruct (F A) as (E & _).
  destruct (reads_order_independent_when_fulfilled setup_read_only
              (node_two_rejections 0 0) _ P) as (_ & Rj).
  destruct (Rj NativeBalance HttpRequestFailed eq_refl)
    as ((before & q1 & after & e1 & _ & _ & R1 & T) & _).
  split; [exact P|]. split; [exact A|]. split; [exact E|].
  split; [reflexivity|]. exists q1, e1. split; [exact R1 | exact T].
Defined.

(** C8 as stated fails when reads are rejected.  With the same answers of
    the endpoint, the native balance and the symbol both rejected, asking
    for the balance first ends with one rejection and asking for the symbol
    first with the other.  The script's own joined reads do the same: with
    symbol and decimals both rejected, the rejection that ends the run is
    the one that arrives first. *)
Lemma rejected_reads_order_dependent :
  outcome (issue_reads setup_read_only (node_two_rejections 0 0)
             [NativeBalance; TokenSymbol; TokenDecimals; TokenBalance] no_reads)
  = Throw (ClientRejected HttpRequestFailed)
  /\ outcome (issue_reads setup_read_only (node_two_rejections 0 0)
                [TokenSymbol; NativeBalance; TokenDecimals; TokenBalance] no_reads)
     = Throw (ClientRejected HandlerCrashed)
  /\ outcome (read_balances setup_read_only (node_token_rejections 0 1))
     = Throw (ClientRejected HandlerCrashed)
  /\ outcome (read_balances setup_read_only (node_token_rejections 1 0))
     = Throw (ClientRejected (RpcFailure (-32000) "execution aborted"))
  /\ (forall q, read_rejection setup_read_only (node_token_rejections 0 1) q
                = read_rejection setup_read_only (node_token_rejections 1 0) q).
Proof.
  repeat split.
Qed.

(** ** C9: the zero-balance gate *)

(** C9.  Once the four reads are answered with a token balance that is not
    positive: with a mnemonic the run throws "Please add <symbol> to your
    account" having taken no transaction step; without one the gate lets
    the run through, the transfer is simulated and, when the simulation is
    fulfilled, the access list is requested. *)
Theorem zero_balance_gate
  (w : World) (s : Setup) (nb : Z) (sym : string) (dec : nat) (bal : Z) :
  setup w = Return s ->
  node_getBalance (endpoint w (setup_url s)) (setup_accountAddress s) = Ok nb ->
  node_symbol (endpoint w (setup_url s)) (setup_tokenAddress s) = Ok sym ->
  node_decimals (endpoint w (setup_url s)) (setup_tokenAddress s) = Ok dec ->
  node_balanceOf (endpoint w (setup_url s)) (setup_tokenAddress s)
    (setup_accountAddress s) = Ok bal ->
  bal <= 0 ->
  (isUsingFallback w = false ->
   outcome (run w) = Throw (PleaseAdd sym)
   /\ tx_ops (trace (run w)) = [])
  /\ (isUsingFallback w = true ->
      exists q, In (SimulateContract q) (trace (run w))
        /\ forall r, dry_run (endpoint w (setup_url s)) q = Return r ->
                     exists p, In (CreateAccessList p) (trace (run w))).
Proof.
  intros E H0 H1 H2 H3 Hb.
  destruct (setup_account_mode w s E) as (M & _).
  rewrite (run_setup w s E), <- M.
  exact (main_zero_balance_gate s _ nb sym dec bal H0 H1 H2 H3 Hb).
Qed.

Lemma zero_balance_gate_witness :
  setup world_signing_empty = Return setup_signing
  /\ node_balanceOf (endpoint world_signing_empty (setup_url setup_signing))
       (setup_tokenAddress setup_signing) (setup_accountAddress setup_signing)
     = Ok 0
  /\ 0 <= 0
  /\ isUsingFallback world_signing_empty = false
  /\ outcome (run world_signing_empty) = Throw (PleaseAdd "USDC")
  /\ tx_ops (trace (run world_signing_empty)) = [].
Proof.
  assert (Hb : 0 <= 0) by lia.
  destruct (zero_balance_gate world_signing_empty setup_signing
              0x16345785d8a0000 "USDC" 6%nat 0
              eq_refl eq_refl eq_refl eq_refl eq_refl Hb) as (G & _).
  destruct (G eq_refl) as (O & T).
  split; [reflexivity|]. split; [reflexivity|]. split; [exact Hb|].
  split; [reflexivity|]. split; [exact O | exact T].
Defined.

(** ** C10: the access-list request against the simulated request *)

(** C10.  Every access-list request of a run follows a fulfilled simulation
    whose returned request is the simulated one; its call data is the
    encoding of that request's function and arguments, its [to] is that
    request's contract address, its account is that request's account and
    its value is 0.  Every simulated call is [transfer] with the account
    itself as recipient. *)
Theorem access_list_request_consistent (w : World) (s : Setup) :
  setup w = Return s ->
  (forall p, In (CreateAccessList p) (trace (run w)) ->
     exists q r,
       In (SimulateContract q) (trace (run w))
       /\ dry_run (endpoint w (setup_url s)) q = Return r
       /\ sim_request r = q
       /\ encodeFunctionData (req_functionName (sim_request r))
            (req_args (sim_request r)) = Return (al_data p)
       /\ al_to p = req_address (sim_request r)
       /\ al_account p = req_account (sim_request r)
       /\ al_value p = 0)
  /\ (forall q, In (SimulateContract q) (trace (run w)) ->
        req_functionName q = transfer
        /\ req_account q = setup_accountAddress s
        /\ exists amount, req_args q = [VAddress (req_account q); VUint amount]).
Proof.
  intro E. rewrite (run_setup w s E). split.
  - intros p H.
    destruct (main_access_list_request s _ p H)
      as (q & r & I & D & R & En & T & V & A & _).
    exists q, r. rewrite R. repeat split; assumption.
  - intros q H.
    destruct (main_simulation_self_transfer s _ q H) as (A & _ & F & d & Ar).
    repeat split; try assumption. exists (send_amount d). exact Ar.
Qed.

Lemma access_list_request_consistent_witness :
  setup world_read_only = Return setup_read_only
  /\ In (CreateAccessList (access_list_request setup_read_only 10000))
        (trace (run world_read_only))
  /\ In (SimulateContract (transfer_request setup_read_only 10000))
        (trace (run world_read_only))
  /\ encodeFunctionData transfer [VAddress FALLBACK_ADDRESS; VUint 10000]
     = Return (al_data (access_list_request setup_read_only 10000))
  /\ to_hex (al_data (access_list_request setup_read_only 10000))
     = "0xa9059cbb000000000000000000000000e30e59040385cfa09e5c61241c20f0673f314c980000000000000000000000000000000000000000000000000000000000002710".
Proof.
  assert (E : setup world_read_only = Return setup_read_only) by reflexivity.
  assert (H : In (CreateAccessList (access_list_request setup_read_only 10000))
                 (trace (run world_read_only)))
    by (vm_compute; repeat (first [left; reflexivity | right])).
  assert (S : In (SimulateContract (transfer_request setup_read_only 10000))
                 (trace (run world_read_only)))
    by (vm_compute; repeat (first [left; reflexivity | right])).
  destruct (access_list_request_consistent world_read_only setup_read_only E)
    as (A & B).
  destruct (A _ H) as (q & r & I & _ & R & En & _).
  destruct (B _ S) as (F & _).
  split; [exact E|]. split; [exact H|]. split; [exact S|].
  split; reflexivity.
Defined.

(** * Further properties of the script *)

Lemma be_bytes_length (len : nat) (k : Z) : List.length (be_bytes len k) = len.
Proof.
  revert k. induction len as [|len IH]; intro k; [reflexivity|].
  cbn [be_bytes]. rewrite length_app, IH. cbn. lia.
Qed.

Lemma transfer_data_layout (a : Address) (k : Z) :
  List.length (transfer_data a k) = 68%nat
  /\ firstn 4 (transfer_data a k) = [0xa9; 0x05; 0x9c; 0xbb]
  /\ skipn 4 (transfer_data a k) = be_bytes 32 a ++ be_bytes 32 k.
Proof.
  unfold transfer_data. rewrite !length_app, !be_bytes_length.
  repeat split.
Qed.

Arguments transfer_data : simpl never.
Arguments be_bytes : simpl never.
Arguments Z.pow : simpl never.

(** ** What a run can throw *)

Lemma encode_transfer_cases (a : Address) (k : Z) :
  encodeFunctionData transfer [VAddress a; VUint k]
  = if (0 <=? k) && (k <? 2 ^ 256)
    then Return (transfer_data a k)
    else Throw (IntegerOutOfRange k).
Proof.
  unfold encodeFunctionData, erc20Abi_inputs, transfer_data.
  cbn [encodeAbiParameters encode_word].
  destruct ((0 <=? k) && (k <? 2 ^ 256)); [rewrite app_nil_r|]; reflexivity.
Qed.

Lemma encode_transfer_throw (a : Address) (k : Z) (e : Thrown) :
  encodeFunctionData transfer [VAddress a; VUint k] = Throw e ->
  e = IntegerOutOfRange k /\ ~ (0 <= k < 2 ^ 256).
Proof.
  rewrite encode_transfer_cases.
  destruct ((0 <=? k) && (k <? 2 ^ 256)) eqn:R; intros [= <-].
  split; [reflexivity|]. intros [H0 H1].
  apply Z.leb_le in H0. apply Z.ltb_lt in H1. rewrite H0, H1 in R. discriminate R.
Qed.

Lemma main_thrown (s : Setup) (n : Node) (e : Thrown) :
  (setup_isUsingFallback s = false -> exists a, setup_account s = Some a) ->
  outcome (main s n) = Throw e ->
  (exists c, e = ClientRejected c)
  \/ (exists sym bal,
        e = PleaseAdd sym
        /\ setup_isUsingFallback s = false
        /\ node_symbol n (setup_tokenAddress s) = Ok sym
        /\ node_balanceOf n (setup_tokenAddress s) (setup_accountAddress s) = Ok bal
        /\ bal <= 0)
  \/ (exists d,
        e = IntegerOutOfRange (send_amount d)
        /\ node_decimals n (setup_tokenAddress s) = Ok d
        /\ (80 <= d)%nat).
Proof.
  intro A. flow; intro H; try discriminate H; injection H as <-.
  all: try (left; eexists; reflexivity).
  all: try match goal with
           | N : setup_account _ = None |- _ =>
               destruct (A eq_refl) as (a' & Sa); congruence
           end.
  all: try match goal with
           | E : encodeFunctionData _ _ = Throw _ |- _ =>
               apply encode_transfer_throw in E; destruct E as (-> & R);
               right; right; eexists; split; [reflexivity|];
               split; [reflexivity|];
               match goal with
               | |- (80 <= ?d)%nat =>
                   destruct (Nat.le_gt_cases 80 d) as [L|G]; [exact L|];
                   exfalso; apply R; apply send_amount_range; lia
               end
           end.
  all: match goal with
       | G : (_ <=? 0) && _ = true |- _ =>
           apply andb_prop in G; destruct G as (G1 & G2);
           apply Z.leb_le in G1; try discriminate G2
       end.
  all: right; left; do 2 eexists; repeat split; assumption.
Qed.

Lemma truthy_nonempty (m : string) : truthy (Some m) = true <-> m <> "".
Proof.
  destruct m; cbn; split; intro H; try reflexivity; try discriminate.
  destruct (H eq_refl).
Qed.

Lemma selected_chain_none (w : World) :
  selected_chain w = None <-> (2 <= List.length (argv_chain w))%nat.
Proof.
  unfold selected_chain, argv_chain_value.
  destruct (argv_chain w) as [|c [|c' cs]]; cbn; split; intro H;
    try discriminate; try reflexivity; lia.
Qed.

Lemma setup_fields (w : World) (s : Setup) :
  setup w = Return s ->
  setup_chainName s = chainName w
  /\ setup_chain s = chain w
  /\ setup_tokenAddress s = tokenAddress w
  /\ account w = Return (setup_account s)
  /\ http (rpcUrl w) (chain w) = Return (setup_url s).
Proof.
  unfold setup. destruct (selected_chain w); [|discriminate].
  destruct (account w) as [a|]; [|discriminate].
  destruct (http (rpcUrl w) (chain w)); [|discriminate].
  intros [= <-]. repeat split.
Qed.

Lemma setup_throws (w : World) (e : Thrown) :
  setup w = Throw e ->
  (e = ChainUndefined /\ (2 <= List.length (argv_chain w))%nat)
  \/ (e = InvalidMnemonic
      /\ (List.length (argv_chain w) < 2)%nat
      /\ exists m, MNEMONIC w = Some m /\ m <> "" /\ mnemonicToAccount w m = None).
Proof.
  destruct (http_resolves w) as (u & H & _).
  unfold setup, account. rewrite H.
  destruct (selected_chain w) as [c|] eqn:Sc.
  - assert (L : (List.length (argv_chain w) < 2)%nat).
    { destruct (Nat.lt_ge_cases (List.length (argv_chain w)) 2) as [L|G];
        [exact L|]. apply selected_chain_none in G. congruence. }
    destruct (MNEMONIC w) as [m|]; [|discriminate].
    destruct (truthy (Some m)) eqn:T; [|discriminate].
    destruct (mnemonicToAccount w m) eqn:D; [discriminate|].
    intros [= <-]. right. split; [reflexivity|]. split; [exact L|]. exists m.
    repeat split; try assumption. apply truthy_nonempty. exact T.
  - intros [= <-]. left. split; [reflexivity|].
    apply selected_chain_none. exact Sc.
Qed.

Lemma setup_consistent (w : World) (s : Setup) :
  setup w = Return s ->
  setup_isUsingFallback s = false -> exists a, setup_account s = Some a.
Proof.
  intros E F. destruct (setup_account_mode w s E) as (M & _ & A).
  destruct (A ltac:(congruence)) as (a & Sa & _). eauto.
Qed.

(** X1.  A run throws only five kinds of values: the [TypeError] of an
    undefined chain (a repeated [--chain]), the invalid mnemonic, a
    rejection of the client, "Please add <symbol>" (with a mnemonic only),
    and the amount that does not fit a [uint256] (eighty decimals or more).
    It never throws "Account is required for transaction sending": the
    guard of lines 198-200 is dead, as are a missing URL, an invalid decimal
    amount and an encoding mismatch. *)
Theorem run_thrown_values (w : World) (e : Thrown) :
  outcome (run w) = Throw e ->
  ((e = ChainUndefined /\ (2 <= List.length (argv_chain w))%nat)
   \/ e = InvalidMnemonic
   \/ (exists c, e = ClientRejected c)
   \/ (exists sym, e = PleaseAdd sym /\ isUsingFallback w = false)
   \/ (exists d, e = IntegerOutOfRange (send_amount d) /\ (80 <= d)%nat))
  /\ e <> AccountRequired
  /\ e <> UrlRequired
  /\ e <> AbiEncodingMismatch
  /\ forall v, e <> InvalidDecimalNumber v.
Proof.
  intro H.
  assert (C : (e = ChainUndefined /\ (2 <= List.length (argv_chain w))%nat)
              \/ e = InvalidMnemonic
              \/ (exists c, e = ClientRejected c)
              \/ (exists sym, e = PleaseAdd sym /\ isUsingFallback w = false)
              \/ (exists d, e = IntegerOutOfRange (send_amount d) /\ (80 <= d)%nat)).
  { destruct (setup w) as [s|e0] eqn:E.
    - rewrite (run_setup w s E) in H.
      destruct (setup_account_mode w s E) as (M & _).
      destruct (main_thrown s _ e (setup_consistent w s E) H)
        as [C|[(sym & bal & -> & F & _)|(d & -> & _ & L)]].
      + right. right. left. exact C.
      + right. right. right. left. exists sym. split; [reflexivity | congruence].
      + right. right. right. right. exists d. split; [reflexivity | exact L].
    - rewrite (run_setup_throw w e0 E) in H. injection H as <-.
      destruct (setup_throws w e0 E) as [C|(C & _)]; [left | right; left]; exact C. }
  split; [exact C|].
  destruct C as [(-> & _)|[->|[(c & ->)|[(sym & -> & _)|(d & -> & _)]]]];
    repeat split; try discriminate; intros v; discriminate.
Qed.

Lemma run_thrown_values_witness :
  outcome (run world_forno) = Throw (ClientRejected MethodNotWhitelisted)
  /\ ClientRejected MethodNotWhitelisted <> AccountRequired
  /\ outcome (run world_repeated_chain) = Throw ChainUndefined.
Proof.
  split; [reflexivity|]. split; [|reflexivity].
  apply (run_thrown_values world_forno (ClientRejected MethodNotWhitelisted) eq_refl).
Defined.



(** ** What a run reads of its environment *)

(** X3.  A run reads two environment variables at most: [MNEMONIC] and the
    RPC variable of the selected chain, and the latter only when no
    non-empty [--rpc-url] is given.  Two worlds that agree on these, on the
    command line, on the key derivation and on the endpoints run alike. *)
Theorem run_reads_only_its_own_variables (w1 w2 : World) :
  argv_chain w1 = argv_chain w2 ->
  argv_rpc_url w1 = argv_rpc_url w2 ->
  mnemonicToAccount w1 = mnemonicToAccount w2 ->
  endpoint w1 = endpoint w2 ->
  env w1 "MNEMONIC" = env w2 "MNEMONIC" ->
  (truthy (argv_rpc_url w1) = false ->
   env w1 (RPC_ENV_VAR_BY_CHAIN (chainName w1))
   = env w2 (RPC_ENV_VAR_BY_CHAIN (chainName w1))) ->
  run w1 = run w2.
Proof.
  intros Hc Hu Hd He Hm Hr.
  assert (Cn : chainName w1 = chainName w2)
    by (unfold chainName, argv_chain_value; rewrite Hc; reflexivity).
  assert (Sc : selected_chain w1 = selected_chain w2)
    by (unfold selected_chain, argv_chain_value; rewrite Hc; reflexivity).
  assert (U : rpcUrl w1 = rpcUrl w2).
  { unfold rpcUrl. rewrite <- Hu, <- Cn.
    destruct (truthy (argv_rpc_url w1)); [reflexivity | apply Hr; reflexivity]. }
  assert (S : setup w1 = setup w2).
  { unfold setup, account, isUsingFallback, tokenAddress, chain, MNEMONIC.
    rewrite <- Hm, <- Hd, <- U, <- Cn, <- Sc. reflexivity. }
  unfold run. rewrite <- S, <- He. reflexivity.
Qed.

Lemma run_reads_only_its_own_variables_witness :
  truthy (argv_rpc_url (world_custom_url None)) = true
  /\ env (world_custom_url (Some "https://env.example")) "BASE_RPC_URL"
     <> env (world_custom_url None) "BASE_RPC_URL"
  /\ run (world_custom_url (Some "https://env.example")) = run (world_custom_url None)
  /\ run world_other_chain_variable = run world_read_only.
Proof.
  split; [reflexivity|]. split; [discriminate|]. split.
  - apply run_reads_only_its_own_variables; try reflexivity.
    intro H. discriminate H.
  - apply run_reads_only_its_own_variables; reflexivity.
Defined.

(** X4.  In read-only mode neither the value of [MNEMONIC] nor the key
    derivation matters: an empty [MNEMONIC] runs as an unset one, and
    [mnemonicToAccount] is not called. *)
Theorem read_only_run_ignores_mnemonic (w1 w2 : World) :
  argv_chain w1 = argv_chain w2 ->
  argv_rpc_url w1 = argv_rpc_url w2 ->
  endpoint w1 = endpoint w2 ->
  env w1 (RPC_ENV_VAR_BY_CHAIN (chainName w1))
  = env w2 (RPC_ENV_VAR_BY_CHAIN (chainName w1)) ->
  isUsingFallback w1 = true ->
  isUsingFallback w2 = true ->
  run w1 = run w2.
Proof.
  intros Hc Hu He Hr F1 F2.
  assert (Cn : chainName w1 = chainName w2)
    by (unfold chainName, argv_chain_value; rewrite Hc; reflexivity).
  assert (Sc : selected_chain w1 = selected_chain w2)
    by (unfold selected_chain, argv_chain_value; rewrite Hc; reflexivity).
  assert (U : rpcUrl w1 = rpcUrl w2).
  { unfold rpcUrl. rewrite <- Hu, <- Cn, Hr. reflexivity. }
  assert (A : forall w, isUsingFallback w = true -> account w = Return None).
  { intros w F. unfold isUsingFallback in F. apply negb_true_iff in F.
    unfold account. destruct (MNEMONIC w) as [m|]; [rewrite F|]; reflexivity. }
  assert (S : setup w1 = setup w2).
  { unfold setup. rewrite (A w1 F1), (A w2 F2), F1, F2.
    unfold tokenAddress, chain. rewrite <- U, <- Cn, <- Sc. reflexivity. }
  unfold run. rewrite <- S, <- He. reflexivity.
Qed.

Lemma read_only_run_ignores_mnemonic_witness :
  MNEMONIC world_empty_mnemonic = Some ""
  /\ MNEMONIC world_read_only = None
  /\ isUsingFallback world_empty_mnemonic = true
  /\ isUsingFallback world_read_only = true
  /\ run world_empty_mnemonic = run world_read_only.
Proof.
  split; [reflexivity|]. split; [reflexivity|].
  split; [reflexivity|]. split; [reflexivity|].
  apply read_only_run_ignores_mnemonic; reflexivity.
Defined.

(** ** The contract and the accounts of a run *)

Lemma main_contract (s : Setup) (n : Node) :
  Forall (fun ev => forall a, event_contract ev = Some a -> a = setup_tokenAddress s)
    (trace (main s n)).
Proof.
  flow.
  all: repeat (apply Forall_cons; [cbn; intros ? E; congruence|]); apply Forall_nil.
Qed.

(** X5.  Every contract read, simulation, access-list request and
    submission of a run addresses the token that [TOKEN_ADDRESS_BY_CHAIN]
    holds for the selected chain ([base] when [--chain] is absent); the
    lookup never misses. *)
Theorem actions_address_the_chain_token (w : World) (ev : Event) (a : Address) :
  In ev (trace (run w)) ->
  event_contract ev = Some a ->
  TOKEN_ADDRESS_BY_CHAIN (chain_id (CHAINS_BY_NAME (chainName w))) = Some a
  /\ (argv_chain w = [] -> a = 0x833589fcd6edb6e08f4c7c32d4f71b54bda02913)
  /\ (argv_chain w = [chain_celo] -> a = 0xceba9300f2b948710d2653dd7b07f33a8b32118c).
Proof.
  intros I C.
  assert (A : a = tokenAddress w).
  { destruct (setup w) as [s|e] eqn:E.
    - rewrite (run_setup w s E) in I.
      destruct (setup_fields w s E) as (_ & _ & <- & _).
      pose proof (main_contract s (endpoint w (setup_url s))) as F.
      rewrite Forall_forall in F. exact (F ev I a C).
    - rewrite (run_setup_throw w e E) in I. destruct I. }
  subst a. split; [apply tokenAddress_defined|].
  unfold tokenAddress, chain, chainName, argv_chain_value.
  split; intros ->; reflexivity.
Qed.

Lemma actions_address_the_chain_token_witness :
  In (CreateAccessList (access_list_request setup_forno 10000))
     (trace (run world_forno))
  /\ event_contract (CreateAccessList (access_list_request setup_forno 10000))
     = Some 0xceba9300f2b948710d2653dd7b07f33a8b32118c
  /\ TOKEN_ADDRESS_BY_CHAIN (chain_id (CHAINS_BY_NAME (chainName world_forno)))
     = Some 0xceba9300f2b948710d2653dd7b07f33a8b32118c.
Proof.
  assert (I : In (CreateAccessList (access_list_request setup_forno 10000))
                 (trace (run world_forno)))
    by (vm_compute; repeat (first [left; reflexivity | right])).
  split; [exact I|]. split; [reflexivity|].
  apply (actions_address_the_chain_token world_forno _ _ I eq_refl).
Defined.

Lemma main_submission (s : Setup) (n : Node) (r : ContractRequest) (a : Account) :
  In (WriteContract r a) (trace (main s n)) ->
  setup_account s = Some a
  /\ setup_isUsingFallback s = false
  /\ In (SimulateContract r) (trace (main s n))
  /\ (exists res, dry_run n r = Return res /\ sim_request res = r)
  /\ req_account r = setup_accountAddress s
  /\ exists bal,
       node_balanceOf n (setup_tokenAddress s) (setup_accountAddress s) = Ok bal
       /\ 0 < bal.
Proof.
  remember (dry_run n r) as dr eqn:Hdr.
  flow; intro H; in_cases H.
  all: injection H as <- <-.
  all: match goal with
       | G : (?b <=? 0) && _ = false |- _ =>
           assert (0 < b)
             by (destruct (b <=? 0) eqn:L; [discriminate G | apply Z.leb_gt; exact L])
       end.
  all: cbn in Hdr.
  all: repeat match goal with
              | E : ?x = _, D : context [?x] |- _ => rewrite E in D
              end.
  all: subst dr.
  all: split; [reflexivity|]. all: split; [reflexivity|].
  all: split; [find_in|]. all: split; [|split; [reflexivity | eauto]].
  all: eexists; split; reflexivity.
Qed.

(** X6.  A transaction is submitted only with a mnemonic, for an account
    holding a positive token balance, and after its dry run was accepted:
    what is submitted is the request the simulation returned, signed by the
    account derived from [MNEMONIC]. *)
Theorem submission_follows_accepted_simulation
  (w : World) (s : Setup) (r : ContractRequest) (a : Account) :
  setup w = Return s ->
  In (WriteContract r a) (trace (run w)) ->
  (exists m, MNEMONIC w = Some m /\ mnemonicToAccount w m = Some a)
  /\ In (SimulateContract r) (trace (run w))
  /\ (exists res, dry_run (endpoint w (setup_url s)) r = Return res
                  /\ sim_request res = r)
  /\ req_account r = account_address a
  /\ exists bal,
       node_balanceOf (endpoint w (setup_url s)) (setup_tokenAddress s)
         (account_address a) = Ok bal
       /\ 0 < bal.
Proof.
  intros E H. rewrite (run_setup w s E) in *.
  destruct (main_submission s _ r a H) as (A & F & I & D & R & B).
  destruct (setup_fields w s E) as (_ & _ & _ & Acc & _).
  destruct (setup_account_mode w s E) as (M & _ & Sg).
  destruct (Sg ltac:(congruence)) as (a' & Sa & Addr).
  assert (a' = a) by congruence. subst a'.
  rewrite <- Addr.
  split; [|repeat split; assumption].
  unfold account in Acc. rewrite A in Acc.
  destruct (MNEMONIC w) as [m|]; [|discriminate Acc].
  destruct (truthy (Some m)); [|discriminate Acc].
  destruct (mnemonicToAccount w m) as [a'|] eqn:D'; [|discriminate Acc].
  exists m. split; [reflexivity|]. congruence.
Qed.

Lemma submission_follows_accepted_simulation_witness :
  setup world_signing = Return setup_signing
  /\ In (WriteContract (transfer_request setup_signing 10000) sample_signer)
        (trace (run world_signing))
  /\ In (SimulateContract (transfer_request setup_signing 10000))
        (trace (run world_signing))
  /\ req_account (transfer_request setup_signing 10000)
     = account_address sample_signer.
Proof.
  assert (H : In (WriteContract (transfer_request setup_signing 10000) sample_signer)
                 (trace (run world_signing)))
    by (vm_compute; repeat (first [left; reflexivity | right])).
  destruct (submission_follows_accepted_simulation world_signing setup_signing
              _ _ eq_refl H) as (_ & I & _ & R & _).
  split; [reflexivity|]. split; [exact H|]. split; [exact I | exact R].
Defined.

(** ** From the simulation to the access-list request *)

Lemma main_simulation_followed (s : Setup) (n : Node) (q : ContractRequest)
  (r : SimulateResult) :
  In (SimulateContract q) (trace (main s n)) ->
  dry_run n q = Return r ->
  exists data,
    encodeFunctionData (req_functionName q) (req_args q) = Return data
    /\ In (CreateAccessList {| al_account := req_account q;
                               al_to := req_address q;
                               al_data := data;
                               al_value := 0;
                               al_gas := None |}) (trace (main s n)).
Proof.
  remember (dry_run n q) as dq eqn:Hdq.
  flow; intro H; in_cases H.
  all: injection H as <-.
  all: cbn in Hdq.
  all: repeat match goal with
              | E : ?x = _, D : context [?x] |- _ => rewrite E in D
              end.
  all: subst dq; intro D; try discriminate D.
  all: eexists; split; [cbn; eassumption | find_in].
Qed.

(** X7.  A simulation that is accepted is always followed by the
    access-list request: encoding the returned request again (line 180)
    cannot throw, and the request carries the call data that was dry-run,
    the simulated account and contract, the value 0 and no gas limit. *)
Theorem accepted_simulation_requests_access_list
  (w : World) (s : Setup) (q : ContractRequest) (r : SimulateResult) :
  setup w = Return s ->
  In (SimulateContract q) (trace (run w)) ->
  dry_run (endpoint w (setup_url s)) q = Return r ->
  exists data,
    encodeFunctionData (req_functionName q) (req_args q) = Return data
    /\ In (CreateAccessList {| al_account := req_account q;
                               al_to := req_address q;
                               al_data := data;
                               al_value := 0;
                               al_gas := None |}) (trace (run w)).
Proof.
  intros E. rewrite (run_setup w s E). apply main_simulation_followed.
Qed.

Lemma accepted_simulation_requests_access_list_witness :
  setup world_read_only = Return setup_read_only
  /\ In (SimulateContract (transfer_request setup_read_only 10000))
        (trace (run world_read_only))
  /\ dry_run (endpoint world_read_only (setup_url setup_read_only))
       (transfer_request setup_read_only 10000)
     = Return {| sim_result := true;
                 sim_request := transfer_request setup_read_only 10000 |}
  /\ exists data,
       encodeFunctionData transfer [VAddress FALLBACK_ADDRESS; VUint 10000]
       = Return data
       /\ In (CreateAccessList {| al_account := FALLBACK_ADDRESS;
                                  al_to := setup_tokenAddress setup_read_only;
                                  al_data := data;
                                  al_value := 0;
                                  al_gas := None |}) (trace (run world_read_only)).
Proof.
  assert (H : In (SimulateContract (transfer_request setup_read_only 10000))
                 (trace (run world_read_only)))
    by (vm_compute; repeat (first [left; reflexivity | right])).
  split; [reflexivity|]. split; [exact H|]. split; [reflexivity|].
  exact (accepted_simulation_requests_access_list world_read_only setup_read_only
           _ _ eq_refl H eq_refl).
Defined.

(** ** Runs that are answered *)

Ltac answered :=
  match goal with
  | E : ?f ?x = Rejected _, A : forall c, exists b, ?f c = Ok b |- _ =>
      destruct (A x) as (? & E'); rewrite E in E'; discriminate E'
  | E : ?f ?x ?y = Rejected _, A : forall c d, exists b, ?f c d = Ok b |- _ =>
      destruct (A x y) as (? & E'); rewrite E in E'; discriminate E'
  end.

Lemma main_answered (s : Setup) (n : Node)
  (nb : Z) (sym : string) (dec : nat) (bal : Z) :
  node_getBalance n (setup_accountAddress s) = Ok nb ->
  node_symbol n (setup_tokenAddress s) = Ok sym ->
  node_decimals n (setup_tokenAddress s) = Ok dec ->
  node_balanceOf n (setup_tokenAddress s) (setup_accountAddress s) = Ok bal ->
  (dec <= 79)%nat ->
  (forall c, exists b, node_call n c = Ok b) ->
  (forall p, exists r, node_createAccessList n p = Ok r) ->
  (forall r a, exists h, node_writeContract n r a = Ok h) ->
  (forall p, exists r, node_waitForTransactionReceipt n p = Ok r) ->
  (setup_isUsingFallback s = true ->
   outcome (main s n) = Return CompletedReadOnly
   /\ tx_ops (trace (main s n)) = [OpSimulate; OpAccessList])
  /\ (setup_isUsingFallback s = false ->
      (exists a, setup_account s = Some a) ->
      0 < bal ->
      (exists r, outcome (main s n) = Return (Sent r))
      /\ tx_ops (trace (main s n)) = tx_order
      /\ submissions (trace (main s n)) = 1%nat).
Proof.
  intros H0 H1 H2 H3 Hd Ac Aa Aw Ar.
  pose proof (encode_transfer (setup_accountAddress s) (send_amount dec)
                (send_amount_range dec Hd)) as En.
  split.
  - intro F. flow_unfold. rewrite F, H0, H1, H2, H3. cbn.
    rewrite andb_false_r. cbn. rewrite parseUnits_send_amount. cbn.
    rewrite En. cbn. repeat (flow_step; cbn); try answered.
    split; reflexivity.
  - intros F (a & Sa) Hb. apply Z.leb_gt in Hb.
    flow_unfold. rewrite F, H0, H1, H2, H3, Sa. cbn. rewrite Hb. cbn.
    rewrite parseUnits_send_amount. cbn. rewrite En. cbn.
    repeat (flow_step; cbn); try answered.
    split; [eexists; reflexivity|]. split; reflexivity.
Qed.

(** X8.  When every request is answered and the token has at most 79
    decimals, a run completes: without a mnemonic in read-only mode after
    the access-list request; with a mnemonic and a positive token balance
    with the receipt of its one submission, having taken the four
    transaction steps. *)
Theorem answered_run_completes
  (w : World) (s : Setup) (nb : Z) (sym : string) (dec : nat) (bal : Z) :
  setup w = Return s ->
  node_getBalance (endpoint w (setup_url s)) (setup_accountAddress s) = Ok nb ->
  node_symbol (endpoint w (setup_url s)) (setup_tokenAddress s) = Ok sym ->
  node_decimals (endpoint w (setup_url s)) (setup_tokenAddress s) = Ok dec ->
  node_balanceOf (endpoint w (setup_url s)) (setup_tokenAddress s)
    (setup_accountAddress s) = Ok bal ->
  (dec <= 79)%nat ->
  (forall c, exists b, node_call (endpoint w (setup_url s)) c = Ok b) ->
  (forall p, exists r, node_createAccessList (endpoint w (setup_url s)) p = Ok r) ->
  (forall r a, exists h, node_writeContract (endpoint w (setup_url s)) r a = Ok h) ->
  (forall p, exists r,
      node_waitForTransactionReceipt (endpoint w (setup_url s)) p = Ok r) ->
  (isUsingFallback w = true ->
   outcome (run w) = Return CompletedReadOnly
   /\ tx_ops (trace (run w)) = [OpSimulate; OpAccessList])
  /\ (isUsingFallback w = false ->
      0 < bal ->
      (exists r, outcome (run w) = Return (Sent r))
      /\ tx_ops (trace (run w)) = tx_order
      /\ submissions (trace (run w)) = 1%nat).
Proof.
  intros E H0 H1 H2 H3 Hd Ac Aa Aw Ar.
  destruct (setup_account_mode w s E) as (M & _).
  destruct (main_answered s _ nb sym dec bal H0 H1 H2 H3 Hd Ac Aa Aw Ar) as (R & S).
  rewrite (run_setup w s E), <- M. split; [exact R|].
  intros F Hb. apply S; try assumption. apply (setup_consistent w s E). exact F.
Qed.

Lemma answered_run_completes_witness :
  setup world_signing = Return setup_signing
  /\ (6 <= 79)%nat
  /\ isUsingFallback world_signing = false
  /\ 0 < 1000000
  /\ (exists r, outcome (run world_signing) = Return (Sent r))
  /\ tx_ops (trace (run world_signing)) = tx_order
  /\ submissions (trace (run world_signing)) = 1%nat.
Proof.
  assert (Hd : (6 <= 79)%nat) by lia.
  assert (Hb : 0 < 1000000) by lia.
  destruct (answered_run_completes world_signing setup_signing
              0x16345785d8a0000 "USDC" 6%nat 1000000
              eq_refl eq_refl eq_refl eq_refl eq_refl Hd
              (fun c => ex_intro _ true eq_refl)
              (fun p => ex_intro _ sample_accessList eq_refl)
              (fun r a => ex_intro _ 0xabc eq_refl)
              (fun p => ex_intro _ (sample_receipt (wait_hash p)) eq_refl))
    as (_ & S).
  split; [reflexivity|]. split; [exact Hd|]. split; [reflexivity|].
  split; [exact Hb|]. exact (S eq_refl Hb).
Defined.

(** ** A token with eighty decimals or more *)

Lemma send_amount_overflow (d : nat) : (80 <= d)%nat -> 2 ^ 256 <= send_amount d.
Proof.
  intro H.
  pose proof (send_amount_scaled d ltac:(lia)) as E.
  assert (10 ^ 80 <= 10 ^ Z.of_nat d) by (apply Z.pow_le_mono_r; lia).
  assert (100 * 2 ^ 256 <= 10 ^ 80) by (vm_compute; discriminate).
  lia.
Qed.

Lemma main_overflow (s : Setup) (n : Node)
  (nb : Z) (sym : string) (dec : nat) (bal : Z) :
  node_getBalance n (setup_accountAddress s) = Ok nb ->
  node_symbol n (setup_tokenAddress s) = Ok sym ->
  node_decimals n (setup_tokenAddress s) = Ok dec ->
  node_balanceOf n (setup_tokenAddress s) (setup_accountAddress s) = Ok bal ->
  (80 <= dec)%nat ->
  (bal <=? 0) && negb (setup_isUsingFallback s) = false ->
  outcome (main s n) = Throw (IntegerOutOfRange (send_amount dec))
  /\ tx_ops (trace (main s n)) = [OpSimulate].
Proof.
  intros H0 H1 H2 H3 Hd G.
  assert (En : encodeFunctionData transfer
                 [VAddress (setup_accountAddress s); VUint (send_amount dec)]
               = Throw (IntegerOutOfRange (send_amount dec))).
  { rewrite encode_transfer_cases.
    pose proof (send_amount_overflow dec Hd) as O.
    apply Z.ltb_ge in O. rewrite O, andb_false_r. reflexivity. }
  flow_unfold. rewrite H0, H1, H2, H3. cbn.
  destruct (setup_isUsingFallback s); cbn in *; rewrite G; cbn;
    rewrite parseUnits_send_amount; cbn; rewrite En; cbn; split; reflexivity.
Qed.

(** X9.  With a token of eighty decimals or more the amount, 0.01 scaled by
    ten to the decimals, is no [uint256]: once the balance gate is passed,
    the run ends in [simulateContract] with the out-of-range amount,
    whatever the endpoint would answer to the call; no access list is
    requested and nothing is submitted. *)
Theorem eighty_decimals_overflow
  (w : World) (s : Setup) (nb : Z) (sym : string) (dec : nat) (bal : Z) :
  setup w = Return s ->
  node_getBalance (endpoint w (setup_url s)) (setup_accountAddress s) = Ok nb ->
  node_symbol (endpoint w (setup_url s)) (setup_tokenAddress s) = Ok sym ->
  node_decimals (endpoint w (setup_url s)) (setup_tokenAddress s) = Ok dec ->
  node_balanceOf (endpoint w (setup_url s)) (setup_tokenAddress s)
    (setup_accountAddress s) = Ok bal ->
  (80 <= dec)%nat ->
  isUsingFallback w = true \/ 0 < bal ->
  2 ^ 256 <= send_amount dec
  /\ outcome (run w) = Throw (IntegerOutOfRange (send_amount dec))
  /\ tx_ops (trace (run w)) = [OpSimulate].
Proof.
  intros E H0 H1 H2 H3 Hd G.
  split; [apply send_amount_overflow; exact Hd|].
  destruct (setup_account_mode w s E) as (M & _).
  rewrite (run_setup w s E).
  apply (main_overflow s _ nb sym dec bal H0 H1 H2 H3 Hd).
  rewrite M. destruct G as [->|Hb]; [apply andb_false_r|].
  apply Z.leb_gt in Hb. rewrite Hb. reflexivity.
Qed.

Lemma eighty_decimals_overflow_witness :
  setup world_many_decimals = Return setup_read_only
  /\ (80 <= 80)%nat
  /\ isUsingFallback world_many_decimals = true
  /\ outcome (run world_many_decimals) = Throw (IntegerOutOfRange (10 ^ 78))
  /\ tx_ops (trace (run world_many_decimals)) = [OpSimulate].
Proof.
  assert (Hd : (80 <= 80)%nat) by lia.
  destruct (eighty_decimals_overflow world_many_decimals setup_read_only
              0x16345785d8a0000 "USDC" 80%nat 1000000
              eq_refl eq_refl eq_refl eq_refl eq_refl Hd (or_introl eq_refl))
    as (_ & O & T).
  split; [reflexivity|]. split; [exact Hd|]. split; [reflexivity|].
  split; [exact O | exact T].
Defined.

(** ** The reads *)

Lemma main_token_reads (s : Setup) (n : Node) :
  (forall nb, node_getBalance n (setup_accountAddress s) = Ok nb ->
     filter is_token_read (trace (main s n)) = token_reads s)
  /\ (forall e, node_getBalance n (setup_accountAddress s) = Rejected e ->
        outcome (main s n) = Throw (ClientRejected e)
        /\ filter is_token_read (trace (main s n)) = []
        /\ last (trace (main s n)) (Console LogSkipping)
           = GetBalance (setup_accountAddress s)).
Proof.
  flow; split; intros x H; try discriminate H; try injection H as <-;
    repeat split.
Qed.

(** X10.  The native balance is awaited on its own, the three token reads
    are fired together.  If the balance read is rejected the run ends there
    and no token read is made; if it is answered, the symbol, decimals and
    balance reads are each made exactly once, in that order, whichever of
    them is rejected. *)
Theorem token_reads_fired_together (w : World) (s : Setup) :
  setup w = Return s ->
  (forall nb,
     node_getBalance (endpoint w (setup_url s)) (setup_accountAddress s) = Ok nb ->
     filter is_token_read (trace (run w)) = token_reads s)
  /\ (forall e,
        node_getBalance (endpoint w (setup_url s)) (setup_accountAddress s)
        = Rejected e ->
        outcome (run w) = Throw (ClientRejected e)
        /\ filter is_token_read (trace (run w)) = []
        /\ last (trace (run w)) (Console LogSkipping)
           = GetBalance (setup_accountAddress s)).
Proof.
  intro E. rewrite (run_setup w s E). apply main_token_reads.
Qed.

Lemma token_reads_fired_together_witness :
  setup world_read_only = Return setup_read_only
  /\ filter is_token_read
       (trace (main setup_read_only (node_token_rejections 0 1)))
     = token_reads setup_read_only
  /\ filter is_token_read (trace (run world_read_only))
     = token_reads setup_read_only.
Proof.
  destruct (token_reads_fired_together world_read_only setup_read_only eq_refl)
    as (A & _).
  split; [reflexivity|]. split; [reflexivity|].
  exact (A 0x16345785d8a0000 eq_refl).
Defined.

(** X11.  The order in which the answers to the three joined reads arrive
    never changes what a run does up to the join, and changes nothing at
    all unless two of them are rejected: two endpoints that answer alike
    give traces that agree, and runs that agree when at most one token read
    is rejected. *)
Theorem arrival_matters_only_between_rejections (s : Setup) (n1 n2 : Node) :
  node_getBalance n1 = node_getBalance n2 ->
  node_symbol n1 = node_symbol n2 ->
  node_decimals n1 = node_decimals n2 ->
  node_balanceOf n1 = node_balanceOf n2 ->
  node_call n1 = node_call n2 ->
  node_createAccessList n1 = node_createAccessList n2 ->
  node_writeContract n1 = node_writeContract n2 ->
  node_waitForTransactionReceipt n1 = node_waitForTransactionReceipt n2 ->
  trace (main s n1) = trace (main s n2)
  /\ ((read_rejection s n1 TokenSymbol = None
       /\ read_rejection s n1 TokenDecimals = None)
      \/ (read_rejection s n1 TokenSymbol = None
          /\ read_rejection s n1 TokenBalance = None)
      \/ (read_rejection s n1 TokenDecimals = None
          /\ read_rejection s n1 TokenBalance = None) ->
      main s n1 = main s n2).
Proof.
  destruct n1 as [g1 y1 d1 b1 c1 l1 w1 r1 t1], n2 as [g2 y2 d2 b2 c2 l2 w2 r2 t2].
  cbn [node_getBalance node_symbol node_decimals node_balanceOf node_call
       node_createAccessList node_writeContract node_waitForTransactionReceipt].
  intros <- <- <- <- <- <- <- <-.
  unfold read_rejection.
  cbn [node_getBalance node_symbol node_decimals node_balanceOf].
  split.
  - flow; reflexivity.
  - flow; intros [(A & B)|[(A & B)|(A & B)]]; try discriminate; reflexivity.
Qed.

Lemma arrival_matters_only_between_rejections_witness :
  main setup_read_only
    (sample_node 6 1000000 (fun _ => Rejected HandlerCrashed) receipt_found)
  = main setup_read_only
      {| node_getBalance := fun _ => Ok 0x16345785d8a0000;
         node_symbol := fun _ => Ok "USDC";
         node_decimals := fun _ => Ok 6%nat;
         node_balanceOf := fun _ _ => Ok 1000000;
         node_call := fun _ => Ok true;
         node_createAccessList := fun _ => Rejected HandlerCrashed;
         node_writeContract := fun _ _ => Ok 0xabc;
         node_waitForTransactionReceipt := receipt_found;
         arrival := fun q => match q with TokenSymbol => 2%nat | _ => 1%nat end |}.
Proof.
  apply arrival_matters_only_between_rejections; try reflexivity.
  left. split; reflexivity.
Defined.

(** ** The call data *)

Lemma main_access_list_data (s : Setup) (n : Node) (p : AccessListParams) :
  In (CreateAccessList p) (trace (main s n)) ->
  exists dec,
    node_decimals n (setup_tokenAddress s) = Ok dec
    /\ 0 <= send_amount dec < 2 ^ 256
    /\ al_data p = transfer_data (setup_accountAddress s) (send_amount dec).
Proof.
  flow; intro H; in_cases H.
  all: injection H as <-.
  all: match goal with
       | E : encodeFunctionData _ _ = Return _ |- _ =>
           rewrite encode_transfer_cases in E;
           match type of E with
           | (if ?c then _ else _) = _ =>
               destruct c eqn:R; [injection E as <- | discriminate E]
           end
       end.
  all: apply andb_prop in R; destruct R as (R0 & R1);
    apply Z.leb_le in R0; apply Z.ltb_lt in R1.
  all: eexists; repeat split; eassumption.
Qed.

(** X12.  The call data of every access-list request is 68 bytes: the
    selector [a9059cbb] of [transfer(address,uint256)], the account as a
    32-byte word and, as a 32-byte word, 0.01 scaled by the decimals the
    token contract answered, which is a [uint256]. *)
Theorem access_list_data_layout (w : World) (s : Setup) (p : AccessListParams) :
  setup w = Return s ->
  In (CreateAccessList p) (trace (run w)) ->
  exists dec,
    node_decimals (endpoint w (setup_url s)) (setup_tokenAddress s) = Ok dec
    /\ 0 <= send_amount dec < 2 ^ 256
    /\ al_data p = selector transfer
                   ++ be_bytes 32 (setup_accountAddress s)
                   ++ be_bytes 32 (send_amount dec)
    /\ List.length (al_data p) = 68%nat
    /\ firstn 4 (al_data p) = [0xa9; 0x05; 0x9c; 0xbb].
Proof.
  intros E H. rewrite (run_setup w s E) in H.
  destruct (main_access_list_data s _ p H) as (dec & D & R & A).
  exists dec. rewrite A.
  destruct (transfer_data_layout (setup_accountAddress s) (send_amount dec))
    as (L & F & _).
  repeat split; try assumption; apply R.
Qed.

Lemma access_list_data_layout_witness :
  setup world_read_only = Return setup_read_only
  /\ In (CreateAccessList (access_list_request setup_read_only 10000))
        (trace (run world_read_only))
  /\ List.length (al_data (access_list_request setup_read_only 10000)) = 68%nat.
Proof.
  assert (H : In (CreateAccessList (access_list_request setup_read_only 10000))
                 (trace (run world_read_only)))
    by (vm_compute; repeat (first [left; reflexivity | right])).
  destruct (access_list_data_layout world_read_only setup_read_only _ eq_refl H)
    as (dec & _ & _ & _ & L & _).
  split; [reflexivity|]. split; [exact H | exact L].
Defined.

(** ** The script against the providers of the README *)

Lemma main_against_provider (s : Setup) (n : Node) (pr : Provider)
  (works : AccessListResult) (p : AccessListParams) :
  node_createAccessList n = provider_createAccessList pr works ->
  In (CreateAccessList p) (trace (main s n)) ->
  node_createAccessList n p = provider_createAccessList pr works (with_gas p None)
  /\ match pr with
     | BaseAlchemy => In (Console (LogAccessListResult works)) (trace (main s n))
     | CeloAlchemy => outcome (main s n) = Throw (ClientRejected HandlerCrashed)
     | _ => exists have want,
              outcome (main s n) = Throw (ClientRejected (GasEstimation have want))
     end.
Proof.
  destruct n as [g y d b c l wr r t].
  cbn [node_createAccessList]. intros ->.
  flow; intro H; in_cases H.
  all: injection H as <-.
  all: try subst pr; cbn in *;
    repeat match goal with
           | E : Ok _ = Ok _ |- _ => injection E as <-
           | E : Rejected _ = Rejected _ |- _ => injection E as <-
           | E : Ok _ = Rejected _ |- _ => discriminate E
           | E : Rejected _ = Ok _ |- _ => discriminate E
           | E : None = Some _ |- _ => discriminate E
           end.
  all: split; [reflexivity|].
  all: first [ reflexivity | do 2 eexists; reflexivity | find_in ].
Qed.

(** X13.  The script sends its access-list request without a gas limit, so
    against the providers of the README it meets the column "Without Gas
    Param": only Base through Alchemy gets its access list printed; Celo
    through Alchemy ends the run with the crashed handler, and the three
    others end it with the gas-estimation error. *)
Theorem script_meets_the_column_without_gas
  (w : World) (s : Setup) (pr : Provider) (works : AccessListResult)
  (p : AccessListParams) :
  setup w = Return s ->
  node_createAccessList (endpoint w (setup_url s))
  = provider_createAccessList pr works ->
  In (CreateAccessList p) (trace (run w)) ->
  al_gas p = None
  /\ match pr with
     | BaseAlchemy => In (Console (LogAccessListResult works)) (trace (run w))
     | CeloAlchemy => outcome (run w) = Throw (ClientRejected HandlerCrashed)
     | _ => exists have want,
              outcome (run w) = Throw (ClientRejected (GasEstimation have want))
     end.
Proof.
  intros E N H. rewrite (run_setup w s E) in *.
  split.
  - destruct (main_access_list_request s _ p H)
      as (q & r & _ & _ & _ & _ & _ & _ & _ & G & _). exact G.
  - apply (main_against_provider s _ pr works p N H).
Qed.

Lemma script_meets_the_column_without_gas_witness :
  setup world_quicknode
  = Return (sample_setup chain_celo (Some sample_signer) "https://example.quiknode.pro")
  /\ In (CreateAccessList
           (access_list_request
              (sample_setup chain_celo (Some sample_signer)
                 "https://example.quiknode.pro") 10000))
        (trace (run world_quicknode))
  /\ exists have want,
       outcome (run world_quicknode)
       = Throw (ClientRejected (GasEstimation have want)).
Proof.
  assert (H : In (CreateAccessList
                    (access_list_request
                       (sample_setup chain_celo (Some sample_signer)
                          "https://example.quiknode.pro") 10000))
                 (trace (run world_quicknode)))
    by (vm_compute; repeat (first [left; reflexivity | right])).
  destruct (script_meets_the_column_without_gas world_quicknode _ CeloQuickNode
              sample_accessList _ eq_refl eq_refl H) as (_ & O).
  split; [reflexivity|]. split; [exact H | exact O].
Defined.

(** ** Rejections *)

Ltac pick_event := (left; reflexivity) + (right; pick_event).

Ltac rewrite_answers :=
  repeat match goal with
         | E : ?x = _ |- context [?x] => rewrite E
         end.

Ltac rewrite_answers_in R :=
  repeat match goal with
         | E : ?x = _ |- _ =>
             tryif constr_eq E R then fail
             else match type of R with context [x] => rewrite E in R end
         end.

Lemma main_rejections (s : Setup) (n : Node) :
  (forall ev e, In ev (trace (main s n)) -> action_rejection n ev = Some e ->
     exists e', outcome (main s n) = Throw (ClientRejected e'))
  /\ (forall e, outcome (main s n) = Throw (ClientRejected e) ->
        exists ev, In ev (trace (main s n)) /\ action_rejection n ev = Some e).
Proof.
  flow.
  all: try match goal with
           | E : encodeFunctionData _ _ = Throw _ |- _ =>
               pose proof (encode_transfer_throw _ _ _ E) as X;
               destruct X as (-> & _)
           end.
  all: split.
  all: try (intros act rej H R; in_cases H; subst act;
            try (eexists; reflexivity);
            cbn in R; unfold rejection_of, dry_run in R; cbn in R;
            rewrite_answers_in R; discriminate R).
  all: try (intros rej H; discriminate H).
  all: intros rej H; injection H as <-.
  all: match goal with
       | |- _ =>
           once ((eexists; split; [simpl; pick_event|]);
                 solve [cbn; unfold rejection_of, dry_run; cbn; rewrite_answers;
                        reflexivity])
       end.
Qed.

(** X14.  No rejection is swallowed and none is invented.  If the endpoint
    rejects any client action a run makes, the run throws a rejection; if a
    run throws a rejection, it is the endpoint's answer to one of the
    actions the run made; and a run that completes had every action
    answered. *)
Theorem rejections_end_the_run (w : World) (s : Setup) :
  setup w = Return s ->
  (forall ev e, In ev (trace (run w)) ->
     action_rejection (endpoint w (setup_url s)) ev = Some e ->
     exists e', outcome (run w) = Throw (ClientRejected e'))
  /\ (forall e, outcome (run w) = Throw (ClientRejected e) ->
        exists ev, In ev (trace (run w))
                   /\ action_rejection (endpoint w (setup_url s)) ev = Some e)
  /\ (forall c, outcome (run w) = Return c ->
        forall ev, In ev (trace (run w)) ->
                   action_rejection (endpoint w (setup_url s)) ev = None).
Proof.
  intro E. rewrite (run_setup w s E).
  destruct (main_rejections s (endpoint w (setup_url s))) as (A & B).
  split; [exact A|]. split; [exact B|].
  intros c C ev I.
  destruct (action_rejection (endpoint w (setup_url s)) ev) as [e|] eqn:R;
    [|reflexivity].
  destruct (A ev e I R) as (e' & T). rewrite C in T. discriminate T.
Qed.

Lemma rejections_end_the_run_witness :
  setup world_no_receipt = Return setup_signing
  /\ In (WaitForTransactionReceipt sample_wait) (trace (run world_no_receipt))
  /\ action_rejection (endpoint world_no_receipt (setup_url setup_signing))
       (WaitForTransactionReceipt sample_wait) = Some WaitForReceiptTimeout
  /\ exists e', outcome (run world_no_receipt) = Throw (ClientRejected e').
Proof.
  assert (H : In (WaitForTransactionReceipt sample_wait)
                 (trace (run world_no_receipt)))
    by (vm_compute; repeat (first [left; reflexivity | right])).
  destruct (rejections_end_the_run world_no_receipt setup_signing eq_refl)
    as (A & _).
  split; [reflexivity|]. split; [exact H|]. split; [reflexivity|].
  exact (A _ WaitForReceiptTimeout H eq_refl).
Defined.
